(** * Iterative verifier (ghostferry, iterative_verifier.go)

    A shallow embedding of the reverify store, the fingerprint comparator,
    the fingerprint query builder, the binlog event listener and the
    verifier controller, with the properties the specification states
    about them.

    Conventions.
    - [uint64] values are [N]; the one place where the source does
      arithmetic on them ([RowCount++]) has its wrap-around written out.
    - Go maps are [gmap]s, Go sets ([map[K]struct{}]) are [gset]s.
    - Go leaves the order of [range] over a map unspecified.  Every loop
      over a map therefore takes the visiting order as an explicit list,
      and a [*_returns] relation quantifies over all the orders the
      runtime may pick. *)

From Stdlib Require Import Strings.Byte.
From stdpp Require Import gmap strings pretty list fin_maps.

Abbreviation uint64 := N (only parsing).

(** ** Runtime outcomes *)

(** A Go call returns, panics, or blocks for ever (on a channel nobody
    serves). *)
Inductive outcome (A : Type) : Type :=
  | Ok (a : A)
  | Panic (msg : string)
  | Blocked.
Arguments Ok {A} a.
Arguments Panic {A} msg.
Arguments Blocked {A}.

#[global] Instance outcome_ret : MRet outcome := λ A a, Ok a.
#[global] Instance outcome_bind : MBind outcome := λ A B k o,
  match o with
  | Ok a => k a
  | Panic msg => Panic msg
  | Blocked => Blocked
  end.

(** Calling a method through a nil pointer, or reading a field of one. *)
Definition nil_deref {A} : outcome A :=
  Panic "invalid memory address or nil pointer dereference".

(** ** Ranging over maps *)

(** [l] is an order in which [range m] may visit the entries of [m]. *)
Definition ranges_map `{Countable K} {V} (m : gmap K V) (l : list (K * V)) : Prop :=
  l ≡ₚ map_to_list m.

(** [l] is an order in which [range s] may visit the keys of a set. *)
Definition ranges_set `{Countable K} (s : gset K) (l : list K) : Prop :=
  l ≡ₚ elements s.

(** ** Collaborator types *)

(** The part of [github.com/siddontang/go-mysql/schema] the verifier
    reads: a table has a schema name, a name and typed columns. *)
Module schema.

Inductive ColumnType :=
  | TYPE_NUMBER | TYPE_FLOAT | TYPE_ENUM | TYPE_SET | TYPE_STRING
  | TYPE_DATETIME | TYPE_TIMESTAMP | TYPE_DATE | TYPE_TIME | TYPE_BIT
  | TYPE_JSON | TYPE_DECIMAL.

#[global] Instance ColumnType_eq_dec : EqDecision ColumnType.
Proof. solve_decision. Defined.

Record TableColumn := { col_Name : string; col_Type : ColumnType }.

Record Table := {
  Schema : string;
  Name : string;
  Columns : list TableColumn;
  (** the indexes, in [Columns], of the columns of the primary key *)
  PKColumns : list nat;
}.

(** [GetPKColumn(index)] is [&ta.Columns[ta.PKColumns[index]]]. *)
Definition GetPKColumn (ta : Table) (index : nat) : outcome TableColumn :=
  match PKColumns ta !! index with
  | None => Panic "index out of range"
  | Some c =>
    match Columns ta !! c with
    | None => Panic "index out of range"
    | Some column => Ok column
    end
  end.

(** [String()] prints the schema name, a dot and the table name. *)
Definition String_ (ta : Table) : string := Schema ta +:+ "." +:+ Name ta.

End schema.

(** ** Reverify store *)

Record TableIdentifier := { SchemaName : string; TableName : string }.

#[global] Instance TableIdentifier_eq_dec : EqDecision TableIdentifier.
Proof. solve_decision. Defined.

#[global] Instance TableIdentifier_countable : Countable TableIdentifier.
Proof.
  refine (inj_countable' (λ t, (SchemaName t, TableName t))
                         (λ p, {| SchemaName := p.1; TableName := p.2 |}) _).
  by intros [].
Defined.

Definition NewTableIdentifierFromSchemaTable (table : schema.Table) : TableIdentifier :=
  {| SchemaName := schema.Schema table; TableName := schema.Name table |}.

Record ReverifyBatch := { Pks : list uint64; Table : TableIdentifier }.

Record ReverifyEntry := { Pk : uint64; EntryTable : schema.Table }.

Module Store.

(** A Go map is a reference: copying a struct that holds one copies the
    reference, not the entries.  Map objects therefore live in a memory,
    and the struct holds a location or nil.  The inner [map[uint64]struct{}]
    of a table is only ever reached through its slot in the outer map, so
    it is kept as the value of that slot.  A location that was never
    written reads as the empty map. *)
Abbreviation loc := positive (only parsing).
Abbreviation TableMap := (gmap TableIdentifier (gset uint64)) (only parsing).

Record Mem := {
  maps : gmap loc TableMap;
  (** the row counts at which [Add] logged its debug checkpoint *)
  checkpoints : list uint64;
}.

Definition deref (σ : Mem) (l : loc) : TableMap := default ∅ (maps σ !! l).

Definition store_map (σ : Mem) (l : loc) (m : TableMap) : Mem :=
  {| maps := <[l := m]> (maps σ); checkpoints := checkpoints σ |}.

Record ReverifyStore := {
  MapStore : option loc;   (** [None] is the nil map *)
  SortedStore : list ReverifyBatch;
  RowCount : uint64;
  EmitLogPerRowCount : uint64;
}.

Definition NewReverifyStore (σ : Mem) : Mem * ReverifyStore :=
  let l := fresh (dom (maps σ)) in
  (store_map σ l ∅,
   {| MapStore := Some l; SortedStore := []; RowCount := 0;
      EmitLogPerRowCount := 10000 |}).

(** [Add] has a pointer receiver: it takes the struct and gives back the
    struct as it has left it.  Writing to a nil map panics, and so does
    the remainder by a zero [EmitLogPerRowCount]. *)
Definition Add (entry : ReverifyEntry) (σ : Mem) (r : ReverifyStore)
    : outcome (Mem * ReverifyStore) :=
  let tableId := NewTableIdentifierFromSchemaTable (EntryTable entry) in
  match MapStore r with
  | None => Panic "assignment to entry in nil map"
  | Some l =>
    let m := deref σ l in
    let m := match m !! tableId with
             | Some _ => m
             | None => <[tableId := ∅]> m
             end in
    let pkSet := default ∅ (m !! tableId) in
    if decide (Pk entry ∈ pkSet) then Ok (store_map σ l m, r)
    else
      let m := <[tableId := {[Pk entry]} ∪ pkSet]> m in
      let rowCount := ((RowCount r + 1) mod 2 ^ 64)%N in
      let r := {| MapStore := MapStore r; SortedStore := SortedStore r;
                  RowCount := rowCount;
                  EmitLogPerRowCount := EmitLogPerRowCount r |} in
      if (EmitLogPerRowCount r =? 0)%N then Panic "integer divide by zero"
      else
        let log := if (rowCount mod EmitLogPerRowCount r =? 0)%N
                   then checkpoints σ ++ [rowCount] else checkpoints σ in
        Ok ({| maps := <[l := m]> (maps σ); checkpoints := log |}, r)
  end.

(** A sequence of [Add] calls on one store. *)
Fixpoint AddAll (entries : list ReverifyEntry) (σ : Mem) (r : ReverifyStore)
    : outcome (Mem * ReverifyStore) :=
  match entries with
  | [] => Ok (σ, r)
  | e :: entries => '(σ, r) ← Add e σ r; AddAll entries σ r
  end.

(** [make([]uint64, 0, cap)].  The runtime's [makeslice] panics with
    "makeslice: cap out of range" when the capacity is negative, and when
    [cap] elements of 8 bytes take more than [maxAlloc] bytes, the size of
    the address space the allocator manages: 2^48 on linux/amd64, so the
    largest capacity it accepts is 2^45.  A request it accepts is taken to
    be served: running out of memory ends the process with a fatal error
    and is no more modelled here than for [append] or a map insert. *)
Definition maxAlloc : Z := 2 ^ 48.

Definition max_cap : Z := maxAlloc / 8.

Definition makeslice (cap : Z) : outcome (list uint64) :=
  if ((cap <? 0) || (max_cap <? cap))%Z then Panic "makeslice: cap out of range"
  else Ok [].

(** The body of the inner loop of [FreezeAndBatchByTable], for one [pk]:
    the state is [r.SortedStore] and [pkBatch]. *)
Definition batch_step (batchsize : Z) (tableId : TableIdentifier)
    (st : list ReverifyBatch * list uint64) (pk : uint64)
    : list ReverifyBatch * list uint64 :=
  let '(sorted, pkBatch) := st in
  let pkBatch := pkBatch ++ [pk] in
  if (Z.of_nat (length pkBatch) >=? batchsize)%Z
  then (sorted ++ [{| Pks := pkBatch; Table := tableId |}], [])
  else (sorted, pkBatch).

(** The body of the outer loop, for the table [tableId] whose keys are
    visited in the order [pks].  The first [make] of the table is the one
    that can panic; the [make] in the inner loop asks for the same
    capacity again.  [r] is the method's copy of the struct, [l] the map
    it refers to. *)
Definition table_step (batchsize : Z) (l : loc) (st : Mem * ReverifyStore)
    (visit : TableIdentifier * list uint64) : outcome (Mem * ReverifyStore) :=
  let '(σ, r) := st in
  let '(tableId, pks) := visit in
  pkBatch ← makeslice batchsize;
  let '(sorted, pkBatch) :=
    foldl (batch_step batchsize tableId) (SortedStore r, pkBatch) pks in
  let sorted := if (0 <? length pkBatch)%nat
                then sorted ++ [{| Pks := pkBatch; Table := tableId |}]
                else sorted in
  Ok (store_map σ l (delete tableId (deref σ l)),
      {| MapStore := MapStore r; SortedStore := sorted;
         RowCount := RowCount r; EmitLogPerRowCount := EmitLogPerRowCount r |}).

Fixpoint table_loop (batchsize : Z) (l : loc) (σ : Mem) (r : ReverifyStore)
    (visits : list (TableIdentifier * list uint64)) : outcome (Mem * ReverifyStore) :=
  match visits with
  | [] => Ok (σ, r)
  | v :: visits =>
    '(σ, r) ← table_step batchsize l (σ, r) v; table_loop batchsize l σ r visits
  end.

(** [FreezeAndBatchByTable] has a value receiver: [r] is a copy of the
    caller's struct.  The assignments to [r.SortedStore] and [r.MapStore]
    change the copy, which is dropped on return; [delete] changes the map
    object, which the caller's struct still refers to.  The result is the
    returned slice and the memory. *)
Definition FreezeAndBatchByTable (visits : list (TableIdentifier * list uint64))
    (batchsize : Z) (σ : Mem) (r : ReverifyStore)
    : outcome (list ReverifyBatch * Mem) :=
  match MapStore r with
  | None => Ok (SortedStore r, σ)
  | Some l =>
    let r := {| MapStore := MapStore r; SortedStore := [];
                RowCount := RowCount r; EmitLogPerRowCount := EmitLogPerRowCount r |} in
    '(σ, r) ← table_loop batchsize l σ r visits;
    let r := {| MapStore := None; SortedStore := SortedStore r;
                RowCount := RowCount r; EmitLogPerRowCount := EmitLogPerRowCount r |} in
    Ok (SortedStore r, σ)
  end.

(** The map the receiver refers to; nothing to range over when it is nil. *)
Definition contents (σ : Mem) (r : ReverifyStore) : TableMap :=
  match MapStore r with
  | None => ∅
  | Some l => deref σ l
  end.

(** [visits] is an order in which the two nested [range] loops may visit
    the tables of [m] and the keys of each table. *)
Definition ranges_store (m : TableMap) (visits : list (TableIdentifier * list uint64)) : Prop :=
  ∃ entries, ranges_map m entries ∧
             Forall2 (λ e v, e.1 = v.1 ∧ ranges_set e.2 v.2) entries visits.

(** The canonical visiting order. *)
Definition canonical_visits (m : TableMap) : list (TableIdentifier * list uint64) :=
  (λ e, (e.1, elements e.2)) <$> map_to_list m.

(** [FreezeAndBatchByTable(batchsize)] on the store [r] in memory [σ] may
    have the outcome [res]. *)
Definition FreezeAndBatchByTable_returns (batchsize : Z) (σ : Mem) (r : ReverifyStore)
    (res : outcome (list ReverifyBatch * Mem)) : Prop :=
  ∃ visits, ranges_store (contents σ r) visits ∧
            FreezeAndBatchByTable visits batchsize σ r = res.

(** The [(table, pk)] pairs of a list of batches, with multiplicity. *)
Definition pairs_of (batches : list ReverifyBatch) : list (TableIdentifier * uint64) :=
  b ← batches; (λ pk, (Table b, pk)) <$> Pks b.

(** The [(table, pk)] pairs of a sequence of added entries. *)
Definition added_pairs (entries : list ReverifyEntry) : list (TableIdentifier * uint64) :=
  (λ e, (NewTableIdentifierFromSchemaTable (EntryTable e), Pk e)) <$> entries.

(** The pairs the two nested loops visit, in visiting order. *)
Definition visit_pairs (visits : list (TableIdentifier * list uint64))
    : list (TableIdentifier * uint64) :=
  v ← visits; (λ pk, (v.1, pk)) <$> v.2.

(** What a batch cut for table [t] under batch size [bs] looks like. *)
Definition batch_ok (bs : Z) (t : TableIdentifier) (b : ReverifyBatch) : Prop :=
  Table b = t ∧ (1 ≤ Z.of_nat (length (Pks b)) ≤ Z.max 1 bs)%Z.

(** The store [r] is live and holds exactly the pairs [ps]. *)
Definition holds (σ : Mem) (r : ReverifyStore) (ps : list (TableIdentifier * uint64)) : Prop :=
  ∃ l, MapStore r = Some l ∧ EmitLogPerRowCount r ≠ 0%N ∧
       ∀ t pk, pk ∈ default ∅ (deref σ l !! t) ↔ (t, pk) ∈ ps.

Definition empty_mem : Mem := {| maps := ∅; checkpoints := [] |}.



(** The number of distinct pairs in a list of pairs. *)
Definition distinct (ps : list (TableIdentifier * uint64)) : nat :=
  size (list_to_set ps : gset (TableIdentifier * uint64)).

End Store.

(** ** Comparator *)

Module Comparator.

(** [bytes.Equal]: same length and same bytes; a nil slice and an empty
    slice are equal, both are the empty list here. *)
Fixpoint bytes_Equal (a b : list byte) : bool :=
  match a, b with
  | [], [] => true
  | x :: a', y :: b' => Byte.eqb x y && bytes_Equal a' b'
  | _, _ => false
  end.

(** The comma-ok map read [v, exists := m[pk]]: the zero value (a nil
    slice) and [false] when the key is absent. *)
Definition index_ok (m : gmap uint64 (list byte)) (pk : uint64) : list byte * bool :=
  match m !! pk with
  | Some v => (v, true)
  | None => ([], false)
  end.

(** One iteration of either loop of [compareHashes]: [other] is the map
    that is indexed, [(pk, hash)] the entry being visited. *)
Definition compare_step (other : gmap uint64 (list byte)) (mismatchSet : gset uint64)
    (e : uint64 * list byte) : gset uint64 :=
  let '(pk, hash) := e in
  let '(otherHash, exists_) := index_ok other pk in
  if negb (bytes_Equal otherHash hash) || negb exists_
  then {[pk]} ∪ mismatchSet
  else mismatchSet.

(** The two loops, visiting [target] in the order [rt] and then [source]
    in the order [rs]. *)
Definition mismatchSet_on (source target : gmap uint64 (list byte))
    (rt rs : list (uint64 * list byte)) : gset uint64 :=
  foldl (compare_step target) (foldl (compare_step source) ∅ rt) rs.

(** [compareHashes source target] may return the slice [mismatches]. *)
Definition compareHashes_returns (source target : gmap uint64 (list byte))
    (mismatches : list uint64) : Prop :=
  ∃ rt rs, ranges_map target rt ∧ ranges_map source rs ∧
           ranges_set (mismatchSet_on source target rt rs) mismatches.

(** The run in which every [range] visits in the map's canonical order. *)
Definition compareHashes (source target : gmap uint64 (list byte)) : list uint64 :=
  elements (mismatchSet_on source target (map_to_list target) (map_to_list source)).

(** What the specification calls a mismatched key. *)
Definition mismatched (source target : gmap uint64 (list byte)) (pk : uint64) : Prop :=
  (is_Some (source !! pk) ∧ target !! pk = None) ∨
  (source !! pk = None ∧ is_Some (target !! pk)) ∨
  (∃ a b, source !! pk = Some a ∧ target !! pk = Some b ∧ a ≠ b).

End Comparator.

(** ** Fingerprint query *)

(** Modelled from the spec: [quoteField] is declared in another file of the
    package; section 6 of the specification shows every column name between
    backquotes. *)
Definition quoteField (field : string) : string := "`" +:+ field +:+ "`".

(** Modelled from the spec: [QuotedTableNameFromString] is declared in
    another file of the package; section 6 shows the table as the quoted
    schema name, a dot, and the quoted table name. *)
Definition QuotedTableNameFromString (database table : string) : string :=
  "`" +:+ database +:+ "`.`" +:+ table +:+ "`".

(** The part of [github.com/Masterminds/squirrel] that [GetMd5HashesSql]
    drives: a select builder that collects its parts, and [ToSql] that
    prints them.  [sq.Eq{key: slice}] prints as [key IN (?,...,?)] with
    one placeholder and one argument per element.  What it prints for an
    empty slice differs between releases of the library, so that text is a
    parameter, [in_empty]. *)
Module sq.

Section squirrel.
Variable in_empty : string → string.

Record SelectBuilder := {
  Columns : list string;
  FromPart : option string;
  WhereParts : list (string * list uint64);
  OrderBys : list string;
}.

Definition Select (column : string) : SelectBuilder :=
  {| Columns := [column]; FromPart := None; WhereParts := []; OrderBys := [] |}.

Definition From (from : string) (b : SelectBuilder) : SelectBuilder :=
  {| Columns := Columns b; FromPart := Some from;
     WhereParts := WhereParts b; OrderBys := OrderBys b |}.

Definition Where (key : string) (vals : list uint64) (b : SelectBuilder) : SelectBuilder :=
  {| Columns := Columns b; FromPart := FromPart b;
     WhereParts := WhereParts b ++ [(key, vals)]; OrderBys := OrderBys b |}.

Definition OrderBy (ob : string) (b : SelectBuilder) : SelectBuilder :=
  {| Columns := Columns b; FromPart := FromPart b;
     WhereParts := WhereParts b; OrderBys := OrderBys b ++ [ob] |}.

Definition Placeholders (count : nat) : string :=
  String.concat "," (replicate count "?").

Definition Eq_ToSql (part : string * list uint64) : string :=
  let '(key, vals) := part in
  match vals with
  | [] => in_empty key
  | _ => key +:+ " IN (" +:+ Placeholders (length vals) +:+ ")"
  end.

Definition ToSql (b : SelectBuilder) : string * list uint64 * option string :=
  match Columns b with
  | [] => ("", [], Some "select statements must have at least one result column")
  | _ =>
    let sql := "SELECT " +:+ String.concat ", " (Columns b) in
    let sql := match FromPart b with
               | Some from => sql +:+ " FROM " +:+ from
               | None => sql
               end in
    let sql := match WhereParts b with
               | [] => sql
               | parts => sql +:+ " WHERE " +:+ String.concat " AND " (Eq_ToSql <$> parts)
               end in
    let sql := match OrderBys b with
               | [] => sql
               | obs => sql +:+ " ORDER BY " +:+ String.concat ", " obs
               end in
    (sql, WhereParts b ≫= snd, None)
  end.
End squirrel.

End sq.

Module Fingerprint.

Section query.
Variable in_empty : string → string.

Definition normalizeAndQuoteColumn (column : schema.TableColumn) : string :=
  let quoted := quoteField (schema.col_Name column) in
  if decide (schema.col_Type column = schema.TYPE_FLOAT)
  then "(if (" +:+ quoted +:+ " = '-0', 0, " +:+ quoted +:+ "))"
  else quoted.

(** One element of [hashStrs]. *)
Definition hashStr (column : schema.TableColumn) : string :=
  "MD5(COALESCE(" +:+ normalizeAndQuoteColumn column +:+ ", 'NULL'))".

Definition rowMd5Selector (columns : list schema.TableColumn) (pkColumn : string)
    : sq.SelectBuilder :=
  let quotedPK := quoteField pkColumn in
  let hashStrs := hashStr <$> columns in
  sq.Select (quotedPK +:+ ", MD5(CONCAT(" +:+ String.concat "," hashStrs
             +:+ ")) AS row_fingerprint").

Definition GetMd5HashesSql (schema_ table pkColumn : string)
    (columns : list schema.TableColumn) (pks : list uint64)
    : string * list uint64 * option string :=
  let quotedPK := quoteField pkColumn in
  sq.ToSql in_empty
    (sq.OrderBy quotedPK
      (sq.Where quotedPK pks
        (sq.From (QuotedTableNameFromString schema_ table)
          (rowMd5Selector columns pkColumn)))).
End query.

End Fingerprint.

(** ** The verifier *)

(** An error value is its message; [None] is the nil error. *)
Abbreviation error := string (only parsing).

Record VerificationResult := { DataCorrect : bool; Message : string }.

Record verificationResultAndError := {
  Result : VerificationResult;
  Error : option error;
}.

Definition ErroredOrFailed (r : verificationResultAndError) : bool :=
  bool_decide (Error r ≠ None) || negb (DataCorrect (Result r)).

(** A change event as the listener sees it: its table and what [PK()]
    returns, a key and an error. *)
Record DMLEvent := {
  TableSchema : schema.Table;
  PK : uint64 * option error;
}.

Inductive chan_state := chan_open | chan_closed.

Record CursorConfig_ := { BatchSize : uint64 }.

Record VerificationResultAndStatus := {
  StatusResult : VerificationResult;
  StartTime : N;
  DoneTime : N;
}.

(** The struct [IterativeVerifier].  A pointer field is an [option], [None]
    for nil.  The store is held in place: the verifier has the only pointer
    to it. *)
Record IterativeVerifier := {
  CursorConfig : option CursorConfig_;
  (** the streamer, with the number of listeners attached to it *)
  BinlogStreamer : option nat;
  TableSchemaCache : option (gmap TableIdentifier schema.Table);
  SourceDB : option nat;
  TargetDB : option nat;
  Tables : list schema.Table;
  IgnoredTables : list string;
  DatabaseRewrites : gmap string string;
  TableRewrites : gmap string string;
  Concurrency : Z;
  reverifyStore : option Store.ReverifyStore;
  reverifyChan : option chan_state;
  logger : option unit;
  beforeCutoverVerifyDone : bool;
  verifyDuringCutoverStarted : bool;
  (** the wait group of the consumer goroutine, with its counter *)
  wg : option Z;
  verificationResultAndStatus : VerificationResultAndStatus;
  verificationErr : option error;
  backgroundVerificationWg : option Z;
  backgroundStartTime : N;
  backgroundDoneTime : N;
}.

(** Assignments to the fields of the struct. *)
Definition set_BinlogStreamer x (v : IterativeVerifier) :=
  {| CursorConfig := CursorConfig v; BinlogStreamer := x;
    TableSchemaCache := TableSchemaCache v; SourceDB := SourceDB v;
    TargetDB := TargetDB v; Tables := Tables v;
    IgnoredTables := IgnoredTables v; DatabaseRewrites := DatabaseRewrites v;
    TableRewrites := TableRewrites v; Concurrency := Concurrency v;
    reverifyStore := reverifyStore v; reverifyChan := reverifyChan v;
    logger := logger v; beforeCutoverVerifyDone := beforeCutoverVerifyDone v;
    verifyDuringCutoverStarted := verifyDuringCutoverStarted v; wg := wg v;
    verificationResultAndStatus := verificationResultAndStatus v;
    verificationErr := verificationErr v;
    backgroundVerificationWg := backgroundVerificationWg v;
    backgroundStartTime := backgroundStartTime v;
    backgroundDoneTime := backgroundDoneTime v |}.

Definition set_IgnoredTables x (v : IterativeVerifier) :=
  {| CursorConfig := CursorConfig v; BinlogStreamer := BinlogStreamer v;
    TableSchemaCache := TableSchemaCache v; SourceDB := SourceDB v;
    TargetDB := TargetDB v; Tables := Tables v; IgnoredTables := x;
    DatabaseRewrites := DatabaseRewrites v; TableRewrites := TableRewrites v;
    Concurrency := Concurrency v; reverifyStore := reverifyStore v;
    reverifyChan := reverifyChan v; logger := logger v;
    beforeCutoverVerifyDone := beforeCutoverVerifyDone v;
    verifyDuringCutoverStarted := verifyDuringCutoverStarted v; wg := wg v;
    verificationResultAndStatus := verificationResultAndStatus v;
    verificationErr := verificationErr v;
    backgroundVerificationWg := backgroundVerificationWg v;
    backgroundStartTime := backgroundStartTime v;
    backgroundDoneTime := backgroundDoneTime v |}.

Definition set_Concurrency x (v : IterativeVerifier) :=
  {| CursorConfig := CursorConfig v; BinlogStreamer := BinlogStreamer v;
    TableSchemaCache := TableSchemaCache v; SourceDB := SourceDB v;
    TargetDB := TargetDB v; Tables := Tables v;
    IgnoredTables := IgnoredTables v; DatabaseRewrites := DatabaseRewrites v;
    TableRewrites := TableRewrites v; Concurrency := x;
    reverifyStore := reverifyStore v; reverifyChan := reverifyChan v;
    logger := logger v; beforeCutoverVerifyDone := beforeCutoverVerifyDone v;
    verifyDuringCutoverStarted := verifyDuringCutoverStarted v; wg := wg v;
    verificationResultAndStatus := verificationResultAndStatus v;
    verificationErr := verificationErr v;
    backgroundVerificationWg := backgroundVerificationWg v;
    backgroundStartTime := backgroundStartTime v;
    backgroundDoneTime := backgroundDoneTime v |}.

Definition set_reverifyStore x (v : IterativeVerifier) :=
  {| CursorConfig := CursorConfig v; BinlogStreamer := BinlogStreamer v;
    TableSchemaCache := TableSchemaCache v; SourceDB := SourceDB v;
    TargetDB := TargetDB v; Tables := Tables v;
    IgnoredTables := IgnoredTables v; DatabaseRewrites := DatabaseRewrites v;
    TableRewrites := TableRewrites v; Concurrency := Concurrency v;
    reverifyStore := x; reverifyChan := reverifyChan v; logger := logger v;
    beforeCutoverVerifyDone := beforeCutoverVerifyDone v;
    verifyDuringCutoverStarted := verifyDuringCutoverStarted v; wg := wg v;
    verificationResultAndStatus := verificationResultAndStatus v;
    verificationErr := verificationErr v;
    backgroundVerificationWg := backgroundVerificationWg v;
    backgroundStartTime := backgroundStartTime v;
    backgroundDoneTime := backgroundDoneTime v |}.

Definition set_reverifyChan x (v : IterativeVerifier) :=
  {| CursorConfig := CursorConfig v; BinlogStreamer := BinlogStreamer v;
    TableSchemaCache := TableSchemaCache v; SourceDB := SourceDB v;
    TargetDB := TargetDB v; Tables := Tables v;
    IgnoredTables := IgnoredTables v; DatabaseRewrites := DatabaseRewrites v;
    TableRewrites := TableRewrites v; Concurrency := Concurrency v;
    reverifyStore := reverifyStore v; reverifyChan := x; logger := logger v;
    beforeCutoverVerifyDone := beforeCutoverVerifyDone v;
    verifyDuringCutoverStarted := verifyDuringCutoverStarted v; wg := wg v;
    verificationResultAndStatus := verificationResultAndStatus v;
    verificationErr := verificationErr v;
    backgroundVerificationWg := backgroundVerificationWg v;
    backgroundStartTime := backgroundStartTime v;
    backgroundDoneTime := backgroundDoneTime v |}.

Definition set_logger x (v : IterativeVerifier) :=
  {| CursorConfig := CursorConfig v; BinlogStreamer := BinlogStreamer v;
    TableSchemaCache := TableSchemaCache v; SourceDB := SourceDB v;
    TargetDB := TargetDB v; Tables := Tables v;
    IgnoredTables := IgnoredTables v; DatabaseRewrites := DatabaseRewrites v;
    TableRewrites := TableRewrites v; Concurrency := Concurrency v;
    reverifyStore := reverifyStore v; reverifyChan := reverifyChan v;
    logger := x; beforeCutoverVerifyDone := beforeCutoverVerifyDone v;
    verifyDuringCutoverStarted := verifyDuringCutoverStarted v; wg := wg v;
    verificationResultAndStatus := verificationResultAndStatus v;
    verificationErr := verificationErr v;
    backgroundVerificationWg := backgroundVerificationWg v;
    backgroundStartTime := backgroundStartTime v;
    backgroundDoneTime := backgroundDoneTime v |}.

Definition set_beforeCutoverVerifyDone x (v : IterativeVerifier) :=
  {| CursorConfig := CursorConfig v; BinlogStreamer := BinlogStreamer v;
    TableSchemaCache := TableSchemaCache v; SourceDB := SourceDB v;
    TargetDB := TargetDB v; Tables := Tables v;
    IgnoredTables := IgnoredTables v; DatabaseRewrites := DatabaseRewrites v;
    TableRewrites := TableRewrites v; Concurrency := Concurrency v;
    reverifyStore := reverifyStore v; reverifyChan := reverifyChan v;
    logger := logger v; beforeCutoverVerifyDone := x;
    verifyDuringCutoverStarted := verifyDuringCutoverStarted v; wg := wg v;
    verificationResultAndStatus := verificationResultAndStatus v;
    verificationErr := verificationErr v;
    backgroundVerificationWg := backgroundVerificationWg v;
    backgroundStartTime := backgroundStartTime v;
    backgroundDoneTime := backgroundDoneTime v |}.

Definition set_verifyDuringCutoverStarted x (v : IterativeVerifier) :=
  {| CursorConfig := CursorConfig v; BinlogStreamer := BinlogStreamer v;
    TableSchemaCache := TableSchemaCache v; SourceDB := SourceDB v;
    TargetDB := TargetDB v; Tables := Tables v;
    IgnoredTables := IgnoredTables v; DatabaseRewrites := DatabaseRewrites v;
    TableRewrites := TableRewrites v; Concurrency := Concurrency v;
    reverifyStore := reverifyStore v; reverifyChan := reverifyChan v;
    logger := logger v; beforeCutoverVerifyDone := beforeCutoverVerifyDone v;
    verifyDuringCutoverStarted := x; wg := wg v;
    verificationResultAndStatus := verificationResultAndStatus v;
    verificationErr := verificationErr v;
    backgroundVerificationWg := backgroundVerificationWg v;
    backgroundStartTime := backgroundStartTime v;
    backgroundDoneTime := backgroundDoneTime v |}.

Definition set_wg x (v : IterativeVerifier) :=
  {| CursorConfig := CursorConfig v; BinlogStreamer := BinlogStreamer v;
    TableSchemaCache := TableSchemaCache v; SourceDB := SourceDB v;
    TargetDB := TargetDB v; Tables := Tables v;
    IgnoredTables := IgnoredTables v; DatabaseRewrites := DatabaseRewrites v;
    TableRewrites := TableRewrites v; Concurrency := Concurrency v;
    reverifyStore := reverifyStore v; reverifyChan := reverifyChan v;
    logger := logger v; beforeCutoverVerifyDone := beforeCutoverVerifyDone v;
    verifyDuringCutoverStarted := verifyDuringCutoverStarted v; wg := x;
    verificationResultAndStatus := verificationResultAndStatus v;
    verificationErr := verificationErr v;
    backgroundVerificationWg := backgroundVerificationWg v;
    backgroundStartTime := backgroundStartTime v;
    backgroundDoneTime := backgroundDoneTime v |}.

Definition set_verificationResultAndStatus x (v : IterativeVerifier) :=
  {| CursorConfig := CursorConfig v; BinlogStreamer := BinlogStreamer v;
    TableSchemaCache := TableSchemaCache v; SourceDB := SourceDB v;
    TargetDB := TargetDB v; Tables := Tables v;
    IgnoredTables := IgnoredTables v; DatabaseRewrites := DatabaseRewrites v;
    TableRewrites := TableRewrites v; Concurrency := Concurrency v;
    reverifyStore := reverifyStore v; reverifyChan := reverifyChan v;
    logger := logger v; beforeCutoverVerifyDone := beforeCutoverVerifyDone v;
    verifyDuringCutoverStarted := verifyDuringCutoverStarted v; wg := wg v;
    verificationResultAndStatus := x; verificationErr := verificationErr v;
    backgroundVerificationWg := backgroundVerificationWg v;
    backgroundStartTime := backgroundStartTime v;
    backgroundDoneTime := backgroundDoneTime v |}.

Definition set_verificationErr x (v : IterativeVerifier) :=
  {| CursorConfig := CursorConfig v; BinlogStreamer := BinlogStreamer v;
    TableSchemaCache := TableSchemaCache v; SourceDB := SourceDB v;
    TargetDB := TargetDB v; Tables := Tables v;
    IgnoredTables := IgnoredTables v; DatabaseRewrites := DatabaseRewrites v;
    TableRewrites := TableRewrites v; Concurrency := Concurrency v;
    reverifyStore := reverifyStore v; reverifyChan := reverifyChan v;
    logger := logger v; beforeCutoverVerifyDone := beforeCutoverVerifyDone v;
    verifyDuringCutoverStarted := verifyDuringCutoverStarted v; wg := wg v;
    verificationResultAndStatus := verificationResultAndStatus v;
    verificationErr := x;
    backgroundVerificationWg := backgroundVerificationWg v;
    backgroundStartTime := backgroundStartTime v;
    backgroundDoneTime := backgroundDoneTime v |}.

Definition set_backgroundVerificationWg x (v : IterativeVerifier) :=
  {| CursorConfig := CursorConfig v; BinlogStreamer := BinlogStreamer v;
    TableSchemaCache := TableSchemaCache v; SourceDB := SourceDB v;
    TargetDB := TargetDB v; Tables := Tables v;
    IgnoredTables := IgnoredTables v; DatabaseRewrites := DatabaseRewrites v;
    TableRewrites := TableRewrites v; Concurrency := Concurrency v;
    reverifyStore := reverifyStore v; reverifyChan := reverifyChan v;
    logger := logger v; beforeCutoverVerifyDone := beforeCutoverVerifyDone v;
    verifyDuringCutoverStarted := verifyDuringCutoverStarted v; wg := wg v;
    verificationResultAndStatus := verificationResultAndStatus v;
    verificationErr := verificationErr v; backgroundVerificationWg := x;
    backgroundStartTime := backgroundStartTime v;
    backgroundDoneTime := backgroundDoneTime v |}.

Definition set_backgroundStartTime x (v : IterativeVerifier) :=
  {| CursorConfig := CursorConfig v; BinlogStreamer := BinlogStreamer v;
    TableSchemaCache := TableSchemaCache v; SourceDB := SourceDB v;
    TargetDB := TargetDB v; Tables := Tables v;
    IgnoredTables := IgnoredTables v; DatabaseRewrites := DatabaseRewrites v;
    TableRewrites := TableRewrites v; Concurrency := Concurrency v;
    reverifyStore := reverifyStore v; reverifyChan := reverifyChan v;
    logger := logger v; beforeCutoverVerifyDone := beforeCutoverVerifyDone v;
    verifyDuringCutoverStarted := verifyDuringCutoverStarted v; wg := wg v;
    verificationResultAndStatus := verificationResultAndStatus v;
    verificationErr := verificationErr v;
    backgroundVerificationWg := backgroundVerificationWg v;
    backgroundStartTime := x; backgroundDoneTime := backgroundDoneTime v |}.

Definition set_backgroundDoneTime x (v : IterativeVerifier) :=
  {| CursorConfig := CursorConfig v; BinlogStreamer := BinlogStreamer v;
    TableSchemaCache := TableSchemaCache v; SourceDB := SourceDB v;
    TargetDB := TargetDB v; Tables := Tables v;
    IgnoredTables := IgnoredTables v; DatabaseRewrites := DatabaseRewrites v;
    TableRewrites := TableRewrites v; Concurrency := Concurrency v;
    reverifyStore := reverifyStore v; reverifyChan := reverifyChan v;
    logger := logger v; beforeCutoverVerifyDone := beforeCutoverVerifyDone v;
    verifyDuringCutoverStarted := verifyDuringCutoverStarted v; wg := wg v;
    verificationResultAndStatus := verificationResultAndStatus v;
    verificationErr := verificationErr v;
    backgroundVerificationWg := backgroundVerificationWg v;
    backgroundStartTime := backgroundStartTime v; backgroundDoneTime := x |}.

Definition set_CursorConfig x (v : IterativeVerifier) :=
  {| CursorConfig := x; BinlogStreamer := BinlogStreamer v;
    TableSchemaCache := TableSchemaCache v; SourceDB := SourceDB v;
    TargetDB := TargetDB v; Tables := Tables v;
    IgnoredTables := IgnoredTables v; DatabaseRewrites := DatabaseRewrites v;
    TableRewrites := TableRewrites v; Concurrency := Concurrency v;
    reverifyStore := reverifyStore v; reverifyChan := reverifyChan v;
    logger := logger v; beforeCutoverVerifyDone := beforeCutoverVerifyDone v;
    verifyDuringCutoverStarted := verifyDuringCutoverStarted v; wg := wg v;
    verificationResultAndStatus := verificationResultAndStatus v;
    verificationErr := verificationErr v;
    backgroundVerificationWg := backgroundVerificationWg v;
    backgroundStartTime := backgroundStartTime v;
    backgroundDoneTime := backgroundDoneTime v |}.

Module Listener.

Fixpoint tableIsIgnored (ignoredTables : list string) (table : schema.Table) : bool :=
  match ignoredTables with
  | [] => false
  | ignored :: rest =>
    if String.eqb (schema.Name table) ignored then true
    else tableIsIgnored rest table
  end.

(** The listener seen from the channel.  The only effect of
    [binlogEventListener] is the send [v.reverifyChan <- entry], so what it
    asks of the channel is a list of entries to send, in order, and the
    value it returns after the last of them.  This is that list and that
    value, not a run: a send completes, blocks or panics as the channel
    decides, which is [Controller.send], and the listener run against the
    channel is [Controller.on_binlog_events].  [offered] is what the loop
    has offered to the channel so far. *)
Fixpoint listener_loop (ignoredTables : list string) (evs : list DMLEvent)
    (offered : list ReverifyEntry) : list ReverifyEntry * option error :=
  match evs with
  | [] => (offered, None)
  | ev :: evs =>
    if tableIsIgnored ignoredTables (TableSchema ev)
    then listener_loop ignoredTables evs offered
    else
      let '(pk, err) := PK ev in
      match err with
      | Some e => (offered, Some e)
      | None =>
        listener_loop ignoredTables evs
          (offered ++ [{| Pk := pk; EntryTable := TableSchema ev |}])
      end
  end.

(** [binlogEventListener] seen from the channel: the entries it offers on
    [reverifyChan], in order, and the error it returns once they have all
    been received.  With the cutover flag set it offers nothing. *)
Definition binlogEventListener (v : IterativeVerifier) (evs : list DMLEvent)
    : list ReverifyEntry * option error :=
  if verifyDuringCutoverStarted v
  then ([], Some "cutover has started but received binlog event!")
  else listener_loop (IgnoredTables v) evs [].

(** The entries of the events of [evs] whose table is not ignored. *)
Definition entries_of (ignoredTables : list string) (evs : list DMLEvent)
    : list ReverifyEntry :=
  (λ ev, {| Pk := (PK ev).1; EntryTable := TableSchema ev |}) <$>
    filter (λ ev, tableIsIgnored ignoredTables (TableSchema ev) = false) evs.

(** [ev] is the first event of the batch [pre ++ ev :: post] whose table
    is not ignored and whose key cannot be extracted, [err] the error. *)
Definition first_failure (ignoredTables : list string) (pre : list DMLEvent)
    (ev : DMLEvent) (err : error) : Prop :=
  Forall (λ e, tableIsIgnored ignoredTables (TableSchema e) = true ∨ (PK e).2 = None) pre ∧
  tableIsIgnored ignoredTables (TableSchema ev) = false ∧
  (PK ev).2 = Some err.

End Listener.

(** ** The controller *)

Module Controller.

(** The state the methods work on: the verifier struct and the memory that
    holds the store's map. *)
Abbreviation state := (IterativeVerifier * Store.Mem)%type (only parsing).

(** [int(x)] for a [uint64]: the same 64 bits read as a signed integer. *)
Definition int_of_uint64 (x : uint64) : Z :=
  if (x <? 2 ^ 63)%N then Z.of_N x else (Z.of_N x - 2 ^ 64)%Z.

(** Modelled from the spec: [WithRetries] is declared in another file of
    the package; section 4.5 gives the policy, up to [maxRetries] attempts,
    the error of the last one returned.  [f] is told which attempt it is. *)
Fixpoint retry {A} (remaining attempt : nat) (f : nat → outcome (A * option error))
    : outcome (A * option error) :=
  '(a, err) ← f attempt;
  match err, remaining with
  | None, _ => Ok (a, None)
  | Some e, O => Ok (a, Some e)
  | Some e, S remaining => retry remaining (S attempt) f
  end.

Definition WithRetries {A} (maxRetries : nat) (f : nat → outcome (A * option error))
    : outcome (A * option error) :=
  retry (maxRetries - 1) 0 f.

Section environment.
(** What the collaborators and the runtime do. *)
Context
  (** what squirrel prints for an empty key list *)
  (in_empty : string → string)
  (** the database behind a handle: the rows [(pk, fingerprint)] a
      prepared statement returns at a given attempt, or the error of
      preparing, running or scanning it *)
  (db_query : nat → string → list uint64 → nat → list (uint64 * list byte) * option error)
  (** the cursor over a table: its pages, each row with what
      [GetUint64] returns for it, and the error the cursor ends with *)
  (cursor_pages : schema.Table → list (list (uint64 * option error)) * option error)
  (** the slice [compareHashes] returns in this run *)
  (compareHashes_run : gmap uint64 (list byte) → gmap uint64 (list byte) → list uint64)
  (** the order in which [FreezeAndBatchByTable] ranges in this run *)
  (freeze_visits : gmap TableIdentifier (gset uint64) → list (TableIdentifier * list uint64))
  (** the worker that takes a job *)
  (worker_of : nat → nat).

(** Modelled from the spec: [WorkerPool] is declared in another file of
    the package.  Section 5: the pool runs the jobs [0 .. n-1] on
    [Concurrency] workers, starts no job after the first one that
    returns an error, and returns the last result of each worker, nil
    for a worker that ran no job, with that error.  Jobs are run here
    one at a time, in index order; without a worker no job is ever
    taken. *)
Fixpoint pool_jobs {S A} (Process : nat → S → outcome (S * (option A * option error)))
    (jobs : list nat) (s : S) (results : list (option A))
    : outcome (S * (list (option A) * option error)) :=
  match jobs with
  | [] => Ok (s, (results, None))
  | i :: jobs =>
    match results with
    | [] => Blocked
    | _ =>
      '(s, (res, err)) ← Process i s;
      let results := <[worker_of i := res]> results in
      match err with
      | Some e => Ok (s, (results, Some e))
      | None => pool_jobs Process jobs s results
      end
    end
  end.

Definition WorkerPool_Run {S A} (concurrency : Z)
    (Process : nat → S → outcome (S * (option A * option error)))
    (n : nat) (s : S) : outcome (S * (list (option A) * option error)) :=
  pool_jobs Process (seq 0 n) s (replicate (Z.to_nat concurrency) None).

(** *** Fetching and comparing fingerprints *)

(** [GetHashes], at one attempt.  Preparing the statement, running it and
    scanning its rows are the database's part; the result set is filled
    row by row. *)
Definition GetHashes (db : option nat) (schema_ table pkColumn : string)
    (columns : list schema.TableColumn) (pks : list uint64) (attempt : nat)
    : outcome (gmap uint64 (list byte) * option error) :=
  let '(sql, args, err) :=
    Fingerprint.GetMd5HashesSql in_empty schema_ table pkColumn columns pks in
  match err with
  | Some e => Ok (∅, Some e)
  | None =>
    match db with
    | None => nil_deref
    | Some handle =>
      let '(rows, err) := db_query handle sql args attempt in
      match err with
      | Some e => Ok (∅, Some e)
      | None =>
        Ok (foldl (λ resultSet row, <[row.1 := row.2]> resultSet) ∅ rows, None)
      end
    end
  end.

Definition compareFingerprints (v : IterativeVerifier) (pks : list uint64)
    (table : schema.Table) : outcome (list uint64 * option error) :=
  let targetDb := default (schema.Schema table)
                    (DatabaseRewrites v !! schema.Schema table) in
  let targetTable := default (schema.Name table)
                       (TableRewrites v !! schema.Name table) in
  pkColumn ← schema.GetPKColumn table 0;
  '(sourceHashes, sourceErr) ←
    WithRetries 5 (GetHashes (SourceDB v) (schema.Schema table) (schema.Name table)
                     (schema.col_Name pkColumn) (schema.Columns table) pks);
  '(targetHashes, targetErr) ←
    WithRetries 5 (GetHashes (TargetDB v) targetDb targetTable
                     (schema.col_Name pkColumn) (schema.Columns table) pks);
  match sourceErr, targetErr with
  | Some e, _ => Ok ([], Some e)
  | None, Some e => Ok ([], Some e)
  | None, None => Ok (compareHashes_run sourceHashes targetHashes, None)
  end.

Definition verifyPksDuringCutover (v : IterativeVerifier) (table : schema.Table)
    (pks : list uint64) : outcome (VerificationResult * option error) :=
  '(mismatchedPks, err) ← compareFingerprints v pks table;
  match err with
  | Some e => Ok ({| DataCorrect := false; Message := "" |}, Some e)
  | None =>
    match mismatchedPks with
    | _ :: _ =>
      let pkStrings := (λ pk : N, pretty pk) <$> mismatchedPks in
      Ok ({| DataCorrect := false;
             Message := "verification failed on table: " +:+ schema.String_ table
                        +:+ " for pks: " +:+ String.concat "," pkStrings |},
          None)
    | [] => Ok ({| DataCorrect := true; Message := "" |}, None)
    end
  end.

(** *** The ingestion channel *)

(** [v.reverifyChan <- entry].  The channel is unbuffered: the send
    completes when the consumer goroutine receives the entry, and the
    consumer adds it to the store before it receives again. *)
Definition send (entry : ReverifyEntry) (st : state) : outcome state :=
  let '(v, σ) := st in
  match reverifyChan v with
  | None => Blocked
  | Some chan_closed => Panic "send on closed channel"
  | Some chan_open =>
    match wg v with
    | None => Blocked
    | Some _ =>
      match reverifyStore v with
      | None => nil_deref
      | Some r =>
        '(σ, r) ← Store.Add entry σ r;
        Ok (set_reverifyStore (Some r) v, σ)
      end
    end
  end.

Fixpoint send_all (entries : list ReverifyEntry) (st : state) : outcome state :=
  match entries with
  | [] => Ok st
  | e :: entries => st ← send e st; send_all entries st
  end.

(** The loop of [binlogEventListener] over the remaining events, each
    send carried out on the channel: the loop goes on to the next event
    when the send has completed, and ends with the send that blocks or
    panics. *)
Fixpoint listen (evs : list DMLEvent) (st : state) : outcome (option error * state) :=
  match evs with
  | [] => Ok (None, st)
  | ev :: evs =>
    if Listener.tableIsIgnored (IgnoredTables st.1) (TableSchema ev)
    then listen evs st
    else
      let '(pk, err) := PK ev in
      match err with
      | Some e => Ok (Some e, st)
      | None =>
        st ← send {| Pk := pk; EntryTable := TableSchema ev |} st;
        listen evs st
      end
  end.

(** [binlogEventListener] run against the channel: the change stream calls
    the listener with a batch of events. *)
Definition on_binlog_events (evs : list DMLEvent) (st : state)
    : outcome (option error * state) :=
  if verifyDuringCutoverStarted st.1
  then Ok (Some "cutover has started but received binlog event!", st)
  else listen evs st.

(** *** Before cutover *)

(** The keys of one page, up to the first row that does not give one. *)
Fixpoint page_pks (rows : list (uint64 * option error)) (pks : list uint64)
    : list uint64 * option error :=
  match rows with
  | [] => (pks, None)
  | (pk, err) :: rows =>
    match err with
    | Some e => (pks, Some e)
    | None => page_pks rows (pks ++ [pk])
    end
  end.

(** The function given to [cursor.Each], on one page. *)
Definition verify_page (table : schema.Table) (rows : list (uint64 * option error))
    (st : state) : outcome (option error * state) :=
  let '(pks, err) := page_pks rows [] in
  match err with
  | Some e => Ok (Some e, st)
  | None =>
    '(mismatchedPks, err) ← compareFingerprints st.1 pks table;
    match err with
    | Some e => Ok (Some e, st)
    | None =>
      st ← send_all ((λ pk, {| Pk := pk; EntryTable := table |}) <$> mismatchedPks) st;
      Ok (None, st)
    end
  end.

(** [cursor.Each]: page after page, until the function or the cursor
    returns an error. *)
Fixpoint cursor_Each (table : schema.Table) (pages : list (list (uint64 * option error)))
    (cursorErr : option error) (st : state) : outcome (option error * state) :=
  match pages with
  | [] => Ok (cursorErr, st)
  | rows :: pages =>
    '(err, st) ← verify_page table rows st;
    match err with
    | Some e => Ok (Some e, st)
    | None => cursor_Each table pages cursorErr st
    end
  end.

Definition verifyTableBeforeCutover (table : schema.Table) (st : state)
    : outcome (option error * state) :=
  match CursorConfig st.1 with
  | None => nil_deref
  | Some _ =>
    _ ← schema.GetPKColumn table 0;
    let '(pages, cursorErr) := cursor_pages table in
    cursor_Each table pages cursorErr st
  end.

Definition SanityCheckParameters (v : IterativeVerifier) : option error :=
  if decide (CursorConfig v = None) then Some "CursorConfig must not be nil"
  else if decide (BinlogStreamer v = None) then Some "BinlogStreamer must not be nil"
  else if decide (SourceDB v = None) then Some "SourceDB must not be nil"
  else if decide (TargetDB v = None) then Some "TargetDB must not be nil"
  else if (Concurrency v <=? 0)%Z
    then Some ("iterative verifier concurrency must be greater than 0, not "
               +:+ pretty (Concurrency v))
  else if decide (TableSchemaCache v = None)
    then Some "iterative verifier must be given the table schema cache"
  else None.

Definition Initialize (st : state) : option error * state :=
  let '(v, σ) := st in
  let v := set_logger (Some ()) v in
  match SanityCheckParameters v with
  | Some e => (Some e, (v, σ))
  | None =>
    let '(σ, r) := Store.NewReverifyStore σ in
    (None, (set_reverifyChan (Some chan_open) (set_reverifyStore (Some r) v), σ))
  end.

(** A call of a method of [v.logger]: the methods of [*logrus.Entry] read
    the fields of the entry, so a nil logger panics. *)
Definition log (v : IterativeVerifier) : outcome () :=
  match logger v with
  | None => nil_deref
  | Some _ => Ok ()
  end.

Definition VerifyBeforeCutover (st : state) : outcome (option error * state) :=
  let '(v, σ) := st in
  _ ← log v;
  (** the consumer goroutine is started: from here a send is received *)
  let v := set_wg (Some 1%Z) v in
  v ← match BinlogStreamer v with
      | None => nil_deref
      | Some listeners => Ok (set_BinlogStreamer (Some (S listeners)) v)
      end;
  '(st, (_, err)) ←
    WorkerPool_Run (A := ()) (Concurrency v)
      (λ tableIndex st,
         match Tables v !! tableIndex with
         | None => Panic "index out of range"
         | Some table =>
           '(err, st) ← verifyTableBeforeCutover table st;
           Ok (st, (None, err))
         end)
      (length (Tables v)) (v, σ);
  let '(v, σ) := st in
  let v := set_beforeCutoverVerifyDone true v in
  Ok (err, (v, σ)).

(** *** During cutover *)

(** The function the pool runs on a batch index. *)
Definition reverify_batch (v : IterativeVerifier) (allBatches : list ReverifyBatch)
    (reverifyBatchIndex : nat)
    : outcome (option verificationResultAndError * option error) :=
  match allBatches !! reverifyBatchIndex with
  | None => Panic "index out of range"
  | Some reverifyBatch =>
    (** [Get] gives nil for a table the cache does not hold, and
        [table.String()] then panics *)
    match TableSchemaCache v ≫= (λ cache, cache !! Table reverifyBatch) with
    | None => nil_deref
    | Some table =>
      '(verificationResult, err) ← verifyPksDuringCutover v table (Pks reverifyBatch);
      let resultAndErr := {| Result := verificationResult; Error := err |} in
      if ErroredOrFailed resultAndErr
      then Ok (Some resultAndErr, Some "reverify errored or failed")
      else Ok (Some resultAndErr, None)
    end
  end.

(** The loop over the result slots [slots], from the values [result]
    and [err] have when it is entered. *)
Fixpoint collect (results : list (option verificationResultAndError))
    (slots : list nat) (result : VerificationResult) (err : option error)
    : outcome (VerificationResult * option error) :=
  match slots with
  | [] => Ok (result, err)
  | i :: slots =>
    match results !! i with
    | None => Panic "index out of range"
    | Some None => collect results slots result err
    | Some (Some resultAndErr) =>
      if ErroredOrFailed resultAndErr
      then Ok (Result resultAndErr, Error resultAndErr)
      else collect results slots (Result resultAndErr) (Error resultAndErr)
    end
  end.

Definition VerifyDuringCutover (st : state)
    : outcome ((VerificationResult * option error) * state) :=
  let '(v, σ) := st in
  let v := set_verifyDuringCutoverStarted true v in
  v ← match reverifyChan v with
      | None => Panic "close of nil channel"
      | Some chan_closed => Panic "close of closed channel"
      | Some chan_open => Ok (set_reverifyChan (Some chan_closed) v)
      end;
  (** the consumer sees the channel closed and returns; [Wait] returns *)
  v ← match wg v with
      | None => nil_deref
      | Some _ => Ok (set_wg (Some 0%Z) v)
      end;
  r ← match reverifyStore v with
      | None => nil_deref
      | Some r => Ok r
      end;
  config ← match CursorConfig v with
           | None => nil_deref
           | Some config => Ok config
           end;
  '(allBatches, σ) ←
    Store.FreezeAndBatchByTable (freeze_visits (Store.contents σ r))
      (int_of_uint64 (BatchSize config)) σ r;
  _ ← log v;
  '(_, (results, _)) ←
    WorkerPool_Run (Concurrency v)
      (λ reverifyBatchIndex (_ : ()),
         res ← reverify_batch v allBatches reverifyBatchIndex; Ok ((), res))
      (length allBatches) ();
  '(result, err) ←
    collect results (seq 0 (Z.to_nat (Concurrency v)))
      {| DataCorrect := false; Message := "" |} None;
  Ok ((result, err), (v, σ)).

(** The pool and the loop of [VerifyDuringCutover] on their own, for the
    batches [allBatches]. *)
Definition reverify_all (v : IterativeVerifier) (allBatches : list ReverifyBatch)
    : outcome (VerificationResult * option error) :=
  '(_, (results, _)) ←
    WorkerPool_Run (Concurrency v)
      (λ reverifyBatchIndex (_ : ()),
         res ← reverify_batch v allBatches reverifyBatchIndex; Ok ((), res))
      (length allBatches) ();
  collect results (seq 0 (Z.to_nat (Concurrency v)))
    {| DataCorrect := false; Message := "" |} None.

(** The result of a batch whose keys all matched. *)
Definition matched : verificationResultAndError :=
  {| Result := {| DataCorrect := true; Message := "" |}; Error := None |}.

(** A result slot that is nil or holds the result of a batch that matched. *)
Definition slot_ok (o : option verificationResultAndError) : Prop :=
  o = None ∨ o = Some matched.

(** [StartInBackground] at the time [now]: the three checks, then the
    goroutine is started and nil is returned.  The boolean says whether
    the goroutine was started. *)
Definition StartInBackground (now : N) (st : state)
    : outcome (option error * bool * state) :=
  let '(v, σ) := st in
  if decide (logger v = None)
  then Ok (Some "Initialize() must be called before this", false, st)
  else if negb (beforeCutoverVerifyDone v)
  then Ok (Some "VerifyBeforeCutover() must be called before this", false, st)
  else if verifyDuringCutoverStarted v
  then Ok (Some "verification during cutover has already been started", false, st)
  else
    let v := set_verificationResultAndStatus
               {| StatusResult := {| DataCorrect := false; Message := "" |};
                  StartTime := now; DoneTime := 0 |} v in
    let v := set_verificationErr None v in
    let v := set_backgroundVerificationWg (Some 1%Z) v in
    Ok (None, true, (v, σ)).

(** [wg.Done()] on the background wait group. *)
Definition background_Done (v : IterativeVerifier) : outcome IterativeVerifier :=
  match backgroundVerificationWg v with
  | None => nil_deref
  | Some n =>
    if (n - 1 <? 0)%Z then Panic "sync: negative WaitGroup counter"
    else Ok (set_backgroundVerificationWg (Some (n - 1)%Z) v)
  end.

(** The goroutine [StartInBackground] starts, finishing at the time
    [now]: the cutover verification, then the two deferred calls, last
    deferred first. *)
Definition background (now : N) (st : state) : outcome state :=
  '((result, err), (v, σ)) ← VerifyDuringCutover st;
  let v := set_verificationErr err
             (set_verificationResultAndStatus
                {| StatusResult := result;
                   StartTime := StartTime (verificationResultAndStatus v);
                   DoneTime := now |} v) in
  v ← background_Done (set_backgroundDoneTime now v);
  v ← background_Done v;
  Ok (v, σ).
End environment.

(** A result slot the loop of [VerifyDuringCutover] passes over: nil, or
    the result of a batch that neither errored nor failed. *)
Definition quiet (results : list (option verificationResultAndError)) (i : nat) : Prop :=
  results !! i = Some None ∨
  ∃ resultAndErr, results !! i = Some (Some resultAndErr) ∧
                  ErroredOrFailed resultAndErr = false.

(** The verifier between the start of [VerifyBeforeCutover] and cutover:
    the channel is open, the consumer goroutine runs, and the store is live
    and holds the pairs [ps]. *)
Definition listening (st : state) (ps : list (TableIdentifier * uint64)) : Prop :=
  reverifyChan st.1 = Some chan_open ∧ is_Some (wg st.1) ∧
  ∃ r, reverifyStore st.1 = Some r ∧ Store.holds st.2 r ps.

(** [v'] is [v] but for its store. *)
Definition only_store (v v' : IterativeVerifier) : Prop :=
  v' = set_reverifyStore (reverifyStore v') v.

(** The listener stops at the first failing event of [evs]: it returns that
    event's error, and it leaves the state that the sends of the entries
    of the earlier events whose table is not ignored leave, in order:
    these have been sent and received, and nothing else has. *)
Definition stops_at_first_failure (st : state) (evs : list DMLEvent) : Prop :=
  ∀ pre ev post err,
    evs = pre ++ ev :: post →
    Listener.first_failure (IgnoredTables st.1) pre ev err →
    ∃ st', send_all (Listener.entries_of (IgnoredTables st.1) pre) st = Ok st' ∧
           on_binlog_events evs st = Ok (Some err, st').

End Controller.

(** ** Concrete inputs used in the examples *)

Module Sample.

Definition t1 : schema.Table :=
  {| schema.Schema := "db"; schema.Name := "t1";
     schema.Columns := [ {| schema.col_Name := "id"; schema.col_Type := schema.TYPE_NUMBER |} ];
     schema.PKColumns := [0%nat] |}.

Definition tid1 : TableIdentifier := {| SchemaName := "db"; TableName := "t1" |}.

Definition entry (pk : uint64) : ReverifyEntry := {| Pk := pk; EntryTable := t1 |}.

(** A live store holding the single pair [(t1, 42)], as [Add] leaves it. *)
Definition mem_42 : Store.Mem :=
  {| Store.maps := {[ 1%positive := {[ tid1 := {[ 42%N ]} ]} ]};
     Store.checkpoints := [] |}.

Definition store_42 : Store.ReverifyStore :=
  {| Store.MapStore := Some 1%positive; Store.SortedStore := [];
     Store.RowCount := 1; Store.EmitLogPerRowCount := 10000 |}.

(** The memory after the first [FreezeAndBatchByTable]. *)
Definition mem_drained : Store.Mem :=
  {| Store.maps := {[ 1%positive := ∅ ]}; Store.checkpoints := [] |}.

Definition batch_42 : ReverifyBatch := {| Pks := [42%N]; Table := tid1 |}.

(** A live store holding three keys of one table. *)
Definition mem_123 : Store.Mem :=
  {| Store.maps := {[ 1%positive := {[ tid1 := {[ 1%N; 2%N; 3%N ]} ]} ]};
     Store.checkpoints := [] |}.

Definition store_123 : Store.ReverifyStore :=
  {| Store.MapStore := Some 1%positive; Store.SortedStore := [];
     Store.RowCount := 3; Store.EmitLogPerRowCount := 10000 |}.

(** The zero value of the struct: no method has been called on it. *)
Definition verifier_zero : IterativeVerifier :=
  {| CursorConfig := None; BinlogStreamer := None; TableSchemaCache := None;
     SourceDB := None; TargetDB := None; Tables := []; IgnoredTables := [];
     DatabaseRewrites := ∅; TableRewrites := ∅; Concurrency := 0;
     reverifyStore := None; reverifyChan := None; logger := None;
     beforeCutoverVerifyDone := false; verifyDuringCutoverStarted := false;
     wg := None;
     verificationResultAndStatus :=
       {| StatusResult := {| DataCorrect := false; Message := "" |};
          StartTime := 0; DoneTime := 0 |};
     verificationErr := None; backgroundVerificationWg := None;
     backgroundStartTime := 0; backgroundDoneTime := 0 |}.

(** The zero value told to ignore the table [skipped]; it has no channel
    yet. *)
Definition verifier_listening : IterativeVerifier :=
  set_IgnoredTables ["skipped"] verifier_zero.

(** The same verifier once the cutover flag is set. *)
Definition verifier_cutover : IterativeVerifier :=
  set_verifyDuringCutoverStarted true verifier_listening.

Definition skipped : schema.Table :=
  {| schema.Schema := "db"; schema.Name := "skipped"; schema.Columns := [];
     schema.PKColumns := [] |}.

Definition ev_ok (pk : uint64) : DMLEvent := {| TableSchema := t1; PK := (pk, None) |}.
Definition ev_skipped : DMLEvent := {| TableSchema := skipped; PK := (0%N, Some "ignored") |}.
Definition ev_bad : DMLEvent := {| TableSchema := t1; PK := (0%N, Some "no primary key") |}.

(** A verifier with every collaborator set, one table to scan and two
    workers. *)
Definition verifier_configured : IterativeVerifier :=
  {| CursorConfig := Some {| BatchSize := 200 |}; BinlogStreamer := Some 0%nat;
     TableSchemaCache := Some {[ tid1 := t1 ]};
     SourceDB := Some 1%nat; TargetDB := Some 2%nat; Tables := [t1];
     IgnoredTables := []; DatabaseRewrites := ∅; TableRewrites := ∅;
     Concurrency := 2;
     reverifyStore := None; reverifyChan := None; logger := None;
     beforeCutoverVerifyDone := false; verifyDuringCutoverStarted := false;
     wg := None;
     verificationResultAndStatus :=
       {| StatusResult := {| DataCorrect := false; Message := "" |};
          StartTime := 0; DoneTime := 0 |};
     verificationErr := None; backgroundVerificationWg := None;
     backgroundStartTime := 0; backgroundDoneTime := 0 |}.

(** Source and target hold the same rows: every key asked for comes back
    from either handle with the same fingerprint. *)
Definition same_rows (handle : nat) (sql : string) (args : list uint64) (attempt : nat)
    : list (uint64 * list byte) * option error :=
  ((λ pk, (pk, ["d"%byte; "4"%byte])) <$> args, None).

(** The cursor gives one page with the keys 1 and 2 for every table. *)
Definition one_page (table : schema.Table)
    : list (list (uint64 * option error)) * option error :=
  ([[(1%N, None); (2%N, None)]], None).

(** The runtime's choices in the examples: the canonical ranging orders,
    every job taken by the first worker. *)
Definition in_empty (key : string) : string := "(1=0)".
Definition first_worker (job : nat) : nat := 0.

(** Fingerprints that differ at key 1; key 2 is on the source only, key 3
    on the target only. *)
Definition hashes_source : gmap uint64 (list byte) :=
  {[ 1%N := ["a"%byte]; 2%N := [] ]}.
Definition hashes_target : gmap uint64 (list byte) :=
  {[ 1%N := ["b"%byte]; 3%N := [] ]}.

(** The state after [Initialize] and [VerifyBeforeCutover] on the
    configured verifier, source and target equal. *)
Definition state_ready : IterativeVerifier * Store.Mem :=
  match Controller.VerifyBeforeCutover in_empty same_rows one_page
          Comparator.compareHashes first_worker
          (Controller.Initialize (verifier_configured, Store.empty_mem)).2 with
  | Ok (_, st) => st
  | _ => (verifier_zero, Store.empty_mem)
  end.

(** The configured verifier told to ignore the table [skipped], and the
    state after [Initialize] and [VerifyBeforeCutover] on it: the listener
    is attached, the channel is open and the consumer runs. *)
Definition verifier_ignoring : IterativeVerifier :=
  set_IgnoredTables ["skipped"] verifier_configured.

Definition state_listening : IterativeVerifier * Store.Mem :=
  match Controller.VerifyBeforeCutover in_empty same_rows one_page
          Comparator.compareHashes first_worker
          (Controller.Initialize (verifier_ignoring, Store.empty_mem)).2 with
  | Ok (_, st) => st
  | _ => (verifier_zero, Store.empty_mem)
  end.

(** The state after [StartInBackground] at time 5 on [state_ready]. *)
Definition state_started : IterativeVerifier * Store.Mem :=
  match Controller.StartInBackground 5 state_ready with
  | Ok (_, _, st) => st
  | _ => (verifier_zero, Store.empty_mem)
  end.

(** The state after [VerifyDuringCutover] on [state_ready]. *)
Definition state_finished : IterativeVerifier * Store.Mem :=
  match Controller.VerifyDuringCutover in_empty same_rows Comparator.compareHashes
          Store.canonical_visits first_worker state_ready with
  | Ok (_, st) => st
  | _ => (verifier_zero, Store.empty_mem)
  end.

(** Source and target differ on every row: the fingerprint depends on the
    handle. *)
Definition diff_rows (handle : nat) (sql : string) (args : list uint64) (attempt : nat)
    : list (uint64 * list byte) * option error :=
  ((λ pk, (pk, if decide (handle = 1%nat) then ["a"%byte] else ["b"%byte])) <$> args,
   None).

(** The state after the scan of [t1] from [state_ready] when source and
    target differ. *)
Definition state_scanned : IterativeVerifier * Store.Mem :=
  match Controller.verifyTableBeforeCutover in_empty diff_rows one_page
          Comparator.compareHashes t1 state_ready with
  | Ok (_, st) => st
  | _ => (verifier_zero, Store.empty_mem)
  end.

(** A table with a float column. *)
Definition columns_if : list schema.TableColumn :=
  [ {| schema.col_Name := "id"; schema.col_Type := schema.TYPE_NUMBER |};
    {| schema.col_Name := "price"; schema.col_Type := schema.TYPE_FLOAT |} ].

End Sample.

(** * Properties *)

Section comparator_facts.
Import Comparator.

Lemma bytes_Equal_spec a b : bytes_Equal a b = true ↔ a = b.
Proof.
  revert b. induction a as [|x a IH]; intros [|y b]; simpl; try done.
  rewrite andb_true_iff, IH. split.
  - intros [Hxy ->]. f_equal. by apply Byte.byte_dec_bl.
  - intros [= -> ->]. split; [by apply Byte.byte_dec_lb | done].
Qed.

Lemma bytes_Equal_false a b : bytes_Equal a b = false ↔ a ≠ b.
Proof. rewrite <- bytes_Equal_spec. by destruct (bytes_Equal a b). Qed.

(** A step never removes a key and adds at most the visited one. *)
Lemma compare_step_elem other acc pk hash x :
  x ∈ compare_step other acc (pk, hash) ↔
  x ∈ acc ∨ (x = pk ∧ (other !! pk = None ∨ ∃ h, other !! pk = Some h ∧ h ≠ hash)).
Proof.
  unfold compare_step, index_ok.
  destruct (other !! pk) as [h|] eqn:Hl; simpl.
  - destruct (bytes_Equal h hash) eqn:Hb; simpl.
    + apply bytes_Equal_spec in Hb as ->. split; [by left|].
      intros [?|[_ [?|(h'&[= <-]&?)]]]; done.
    + apply bytes_Equal_false in Hb. rewrite elem_of_union, elem_of_singleton.
      split; [intros [->|?]; [right|left]; eauto|].
      intros [?|[-> _]]; auto.
  - rewrite orb_true_r, elem_of_union, elem_of_singleton.
    split; [intros [->|?]; [right|left]; eauto|].
    intros [?|[-> _]]; auto.
Qed.

Lemma foldl_compare_step_elem other l acc x :
  x ∈ foldl (compare_step other) acc l ↔
  x ∈ acc ∨ ∃ hash, (x, hash) ∈ l ∧
                    (other !! x = None ∨ ∃ h, other !! x = Some h ∧ h ≠ hash).
Proof.
  revert acc. induction l as [|[pk hash] l IH]; intros acc; cbn [foldl].
  - split; [by left|]. intros [?|(?&?%elem_of_nil&_)]; done.
  - rewrite IH, compare_step_elem. split.
    + intros [[?|[-> ?]]|(h&?&?)]; [by left|right..].
      * exists hash. split; [left|done].
      * exists h. split; [by right|done].
    + intros [?|(h&[[= -> ->]|?]%elem_of_cons&?)]; [by left; left| |].
      * left; right. done.
      * right. eauto.
Qed.

Lemma mismatchSet_on_elem source target rt rs x :
  ranges_map target rt → ranges_map source rs →
  x ∈ mismatchSet_on source target rt rs ↔ mismatched source target x.
Proof.
  unfold ranges_map, mismatchSet_on, mismatched. intros Ht Hs.
  rewrite !foldl_compare_step_elem. setoid_rewrite Ht. setoid_rewrite Hs.
  setoid_rewrite elem_of_map_to_list. split.
  - intros [[?%not_elem_of_empty|(h&Hx&[?|(h'&?&?)])]|(h&Hx&[?|(h'&?&?)])]; try done.
    + right; left. eauto.
    + right; right. eauto.
    + left. eauto.
    + right; right. exists h, h'. eauto.
  - intros [[[a Ha] Hn]|[[Hn [b Hb]]|(a&b&Ha&Hb&Hab)]].
    + right. exists a. eauto.
    + left; right. exists b. eauto.
    + right. exists a. split; [done|]. right. exists b. eauto.
Qed.

Lemma compareHashes_runs source target :
  compareHashes_returns source target (compareHashes source target).
Proof.
  exists (map_to_list target), (map_to_list source).
  by unfold ranges_map, ranges_set.
Qed.

Lemma mismatched_sym source target x :
  mismatched source target x → mismatched target source x.
Proof.
  intros [[Ha Hn]|[[Hn Hb]|(a&b&Ha&Hb&Hab)]].
  - right; left. done.
  - left. done.
  - right; right. exists b, a. done.
Qed.
(** Key 1 differs, key 2 is on the source only, key 3 on the target only. *)
Example compareHashes_example :
  compareHashes Sample.hashes_source Sample.hashes_target = [2%N; 3%N; 1%N].
Proof. by vm_compute. Qed.
End comparator_facts.

(** C4. Whatever order the runtime ranges in, [compareHashes source target]
    returns a duplicate-free slice that holds exactly the keys present on
    one side only or present on both sides with unequal fingerprints; and
    the function does return such a slice. *)
Theorem compareHashes_exact (source target : gmap uint64 (list byte)) :
  Comparator.compareHashes_returns source target (Comparator.compareHashes source target) ∧
  ∀ mismatches, Comparator.compareHashes_returns source target mismatches →
    NoDup mismatches ∧
    ∀ pk, pk ∈ mismatches ↔ Comparator.mismatched source target pk.
Proof.
  split.
  - apply compareHashes_runs.
  - intros out (rt & rs & Ht & Hs & Hout). unfold ranges_set in Hout. split.
    + rewrite Hout. apply NoDup_elements.
    + intros pk. rewrite Hout, elem_of_elements. by apply mismatchSet_on_elem.
Qed.

(** C9. The set of keys returned by [compareHashes source target] is the
    set returned by [compareHashes target source]. *)
Theorem compareHashes_symmetric (source target : gmap uint64 (list byte))
    (out1 out2 : list uint64) :
  Comparator.compareHashes_returns source target out1 →
  Comparator.compareHashes_returns target source out2 →
  ∀ pk, pk ∈ out1 ↔ pk ∈ out2.
Proof.
  intros (rt1 & rs1 & Ht1 & Hs1 & Ho1) (rt2 & rs2 & Ht2 & Hs2 & Ho2) pk.
  unfold ranges_set in *. rewrite Ho1, Ho2, !elem_of_elements.
  rewrite !mismatchSet_on_elem by done.
  split; apply mismatched_sym.
Qed.

Section store_facts.
Import Store.

Implicit Types (σ : Mem) (r : ReverifyStore) (m : gmap TableIdentifier (gset N)).
Implicit Types (visits : list (TableIdentifier * list N)).

Lemma pairs_of_app b1 b2 : pairs_of (b1 ++ b2) = pairs_of b1 ++ pairs_of b2.
Proof. unfold pairs_of. apply bind_app. Qed.

Lemma pairs_of_same_table t new :
  Forall (λ b, Table b = t) new →
  pairs_of new = (λ pk, (t, pk)) <$> concat (Pks <$> new).
Proof.
  induction 1 as [|b new Hb _ IH]; [done|].
  change (pairs_of (b :: new)) with (((λ pk, (Table b, pk)) <$> Pks b) ++ pairs_of new).
  rewrite IH, Hb. cbn [fmap list_fmap concat]. by rewrite fmap_app.
Qed.

Lemma foldl_batch_step bs t pks : ∀ sorted acc,
  (Z.of_nat (length acc) < Z.max 1 bs)%Z →
  ∃ new acc',
    foldl (batch_step bs t) (sorted, acc) pks = (sorted ++ new, acc') ∧
    concat (Pks <$> new) ++ acc' = acc ++ pks ∧
    Forall (batch_ok bs t) new ∧
    (Z.of_nat (length acc') < Z.max 1 bs)%Z.
Proof.
  induction pks as [|pk pks IH]; intros sorted acc Hacc; cbn [foldl].
  - exists [], acc. by rewrite !app_nil_r.
  - unfold batch_step at 2. rewrite Z.geb_leb.
    destruct (Z.leb_spec bs (Z.of_nat (length (acc ++ [pk])))) as [Hfull|Hroom].
    + destruct (IH (sorted ++ [{| Pks := acc ++ [pk]; Table := t |}]) [])
        as (new & acc' & -> & Hcat & Hnew & Hacc'); [simpl; lia|].
      eexists (_ :: new), acc'. split_and!.
      * by rewrite <- app_assoc.
      * cbn [fmap list_fmap concat Pks]. rewrite <- !app_assoc. f_equal.
        simpl in *. by f_equal.
      * constructor; [|done]. split; [done|]. simpl.
        rewrite length_app in *. simpl in *. lia.
      * done.
    + rewrite length_app in Hroom. simpl in Hroom.
      destruct (IH sorted (acc ++ [pk]))
        as (new & acc' & -> & Hcat & Hnew & Hacc'); [rewrite length_app; simpl; lia|].
      exists new, acc'. split_and!; [done| |done..].
      by rewrite Hcat, <- app_assoc.
Qed.

Lemma max_cap_eq : max_cap = (2 ^ 45)%Z.
Proof. reflexivity. Qed.

Lemma makeslice_ok cap : (0 ≤ cap ≤ max_cap)%Z → makeslice cap = Ok [].
Proof.
  intros Hcap. unfold makeslice.
  destruct (Z.ltb_spec cap 0); [lia|]. by destruct (Z.ltb_spec max_cap cap); [lia|].
Qed.

Lemma makeslice_panics cap :
  (cap < 0 ∨ max_cap < cap)%Z → makeslice cap = Panic "makeslice: cap out of range".
Proof.
  intros Hcap. unfold makeslice.
  destruct (Z.ltb_spec cap 0); [done|]. by destruct (Z.ltb_spec max_cap cap); [|lia].
Qed.

(** One table: the batches appended carry exactly the visited keys, in
    order, and the table is deleted from the map object. *)
Lemma table_step_ok bs l σ r t pks :
  (0 ≤ bs ≤ max_cap)%Z →
  ∃ new,
    table_step bs l (σ, r) (t, pks) =
      Ok (store_map σ l (delete t (deref σ l)),
          {| MapStore := MapStore r; SortedStore := SortedStore r ++ new;
             RowCount := RowCount r; EmitLogPerRowCount := EmitLogPerRowCount r |}) ∧
    pairs_of new = (λ pk, (t, pk)) <$> pks ∧
    Forall (batch_ok bs t) new.
Proof.
  intros Hbs. unfold table_step. rewrite makeslice_ok by done.
  cbn [mbind outcome_bind].
  destruct (foldl_batch_step bs t pks (SortedStore r) [])
    as (new & acc' & -> & Hcat & Hnew & Hacc'); [simpl; lia|].
  simpl in Hcat. destruct acc' as [|pk acc']; simpl.
  - exists new. rewrite app_nil_r in Hcat. split_and!; [done| |done].
    rewrite (pairs_of_same_table t), Hcat; [done|].
    eapply Forall_impl; [exact Hnew|]. by intros ? [].
  - exists (new ++ [{| Pks := pk :: acc'; Table := t |}]). split_and!.
    + by rewrite <- app_assoc.
    + rewrite (pairs_of_same_table t).
      * rewrite fmap_app, concat_app. simpl. by rewrite app_nil_r, Hcat.
      * apply Forall_app. split; [|by repeat constructor].
        eapply Forall_impl; [exact Hnew|]. by intros ? [].
    + apply Forall_app. split; [done|].
      constructor; [|done]. split; [done|]. simpl in *. lia.
Qed.

Lemma table_step_panics bs l σ r v :
  (bs < 0 ∨ max_cap < bs)%Z →
  table_step bs l (σ, r) v = Panic "makeslice: cap out of range".
Proof.
  intros Hbs. unfold table_step. destruct v. by rewrite makeslice_panics.
Qed.

Lemma deref_store_map σ l m : deref (store_map σ l m) l = m.
Proof. unfold deref, store_map. simpl. by rewrite lookup_insert_eq. Qed.

Lemma deref_insert ms log l m :
  deref {| maps := <[l := m]> ms; checkpoints := log |} l = m.
Proof. unfold deref. simpl. by rewrite lookup_insert_eq. Qed.

(** The whole outer loop. *)
Lemma table_loop_ok bs l visits : ∀ σ r,
  (0 ≤ bs ≤ max_cap)%Z →
  ∃ σ' new,
    table_loop bs l σ r visits =
      Ok (σ', {| MapStore := MapStore r; SortedStore := SortedStore r ++ new;
                 RowCount := RowCount r; EmitLogPerRowCount := EmitLogPerRowCount r |}) ∧
    pairs_of new = visit_pairs visits ∧
    Forall (λ b, ∃ t, batch_ok bs t b) new ∧
    (visits ≠ [] → deref σ' l = foldl (λ m v, delete v.1 m) (deref σ l) visits) ∧
    (visits = [] → σ' = σ) ∧
    checkpoints σ' = checkpoints σ.
Proof.
  induction visits as [|[t pks] visits IH]; intros σ r Hbs; cbn [table_loop].
  - exists σ, []. rewrite app_nil_r. destruct r. by split_and!.
  - destruct (table_step_ok bs l σ r t pks Hbs) as (new1 & -> & Hp1 & Hb1).
    cbn [mbind outcome_bind].
    destruct (IH (store_map σ l (delete t (deref σ l)))
                 {| MapStore := MapStore r; SortedStore := SortedStore r ++ new1;
                    RowCount := RowCount r;
                    EmitLogPerRowCount := EmitLogPerRowCount r |} Hbs)
      as (σ' & new2 & -> & Hp2 & Hb2 & Hd & He & Hc).
    exists σ', (new1 ++ new2). cbn [MapStore SortedStore RowCount EmitLogPerRowCount].
    split_and!.
    + by rewrite app_assoc.
    + rewrite pairs_of_app, Hp1, Hp2. done.
    + apply Forall_app. split; [|done].
      eapply Forall_impl; [exact Hb1|]. intros b ?. by exists t.
    + intros _. cbn [foldl]. destruct visits as [|v visits].
      * rewrite (He eq_refl). by rewrite deref_store_map.
      * rewrite Hd by done. by rewrite deref_store_map.
    + done.
    + by rewrite Hc.
Qed.

Lemma lookup_foldl_delete visits : ∀ m k,
  foldl (λ m v, delete v.1 m) m visits !! k =
    if decide (k ∈ visits.*1) then None else m !! k.
Proof.
  induction visits as [|v visits IH]; intros m k; cbn [foldl].
  - rewrite decide_False; [done|]. apply not_elem_of_nil.
  - rewrite IH, fmap_cons. destruct (decide (k ∈ visits.*1)) as [Hk|Hk].
    + rewrite decide_True; [done|]. by right.
    + destruct (decide (k = v.1)) as [->|Hne].
      * rewrite decide_True by left. apply lookup_delete_eq.
      * rewrite decide_False by (intros [?|?]%elem_of_cons; done).
        by apply lookup_delete_ne.
Qed.

(** ** The visiting orders *)

Lemma ranges_store_fst m visits :
  ranges_store m visits → visits.*1 ≡ₚ (map_to_list m).*1.
Proof.
  intros (entries & Hperm & Hall). rewrite <- Hperm. clear Hperm.
  induction Hall as [|e v entries visits [He _] _ IH]; [done|].
  rewrite !fmap_cons, He, IH. done.
Qed.

Lemma ranges_store_canonical m : ranges_store m (canonical_visits m).
Proof.
  exists (map_to_list m). split; [by unfold ranges_map|]. unfold canonical_visits.
  induction (map_to_list m) as [|e es IH]; constructor; [|done].
  by unfold ranges_set.
Qed.

Lemma visit_pairs_cons v visits :
  visit_pairs (v :: visits) = ((λ pk, (v.1, pk)) <$> v.2) ++ visit_pairs visits.
Proof. done. Qed.

Lemma elem_of_visit_pairs entries visits p :
  Forall2 (λ e v, e.1 = v.1 ∧ ranges_set e.2 v.2) entries visits →
  p ∈ visit_pairs visits ↔ ∃ e, e ∈ entries ∧ p.1 = e.1 ∧ p.2 ∈ e.2.
Proof.
  induction 1 as [|e v entries visits [He Hv] _ IH].
  - split; [by intros ?%elem_of_nil|]. by intros (?&?%elem_of_nil&_).
  - rewrite visit_pairs_cons, elem_of_app, IH, list_elem_of_fmap.
    unfold ranges_set in Hv. setoid_rewrite Hv. setoid_rewrite elem_of_elements.
    split.
    + intros [(pk & -> & Hpk)|(e' & ? & ?)].
      * exists e. split; [left|]. by rewrite He.
      * exists e'. split; [by right|done].
    + intros (e' & [->|?]%elem_of_cons & Hp1 & Hp2).
      * left. exists p.2. split; [|done]. rewrite <- He, <- Hp1. by destruct p.
      * right. eauto.
Qed.

Lemma NoDup_visit_pairs entries visits :
  Forall2 (λ e v, e.1 = v.1 ∧ ranges_set e.2 v.2) entries visits →
  NoDup entries.*1 → NoDup (visit_pairs visits).
Proof.
  induction 1 as [|e v entries visits [He Hv] Hall IH]; intros Hnd.
  - constructor.
  - rewrite fmap_cons in Hnd. apply NoDup_cons in Hnd as [Hfresh Hnd].
    rewrite visit_pairs_cons. apply NoDup_app. split_and!.
    + apply (NoDup_fmap_2 _). unfold ranges_set in Hv. rewrite Hv.
      apply NoDup_elements.
    + intros p (pk & -> & _)%list_elem_of_fmap
             (e' & He' & Hp1 & _)%(elem_of_visit_pairs entries); [|done].
      apply Hfresh. simpl in Hp1. rewrite He, Hp1.
      apply list_elem_of_fmap. eauto.
    + by apply IH.
Qed.

(** The pairs visited are the pairs stored, each once. *)
Lemma ranges_store_pairs m visits :
  ranges_store m visits →
  NoDup (visit_pairs visits) ∧
  ∀ t pk, (t, pk) ∈ visit_pairs visits ↔ pk ∈ default ∅ (m !! t).
Proof.
  intros (entries & Hperm & Hall). unfold ranges_map in Hperm. split.
  - apply (NoDup_visit_pairs entries); [done|]. rewrite Hperm.
    apply NoDup_fst_map_to_list.
  - intros t pk. rewrite (elem_of_visit_pairs entries) by done.
    setoid_rewrite Hperm. split.
    + intros ([t' s] & Hin%elem_of_map_to_list & Ht & Hpk). simpl in *.
      subst t'. by rewrite Hin.
    + intros Hpk. destruct (m !! t) as [s|] eqn:Hl; simpl in Hpk;
        [|by apply not_elem_of_empty in Hpk].
      exists (t, s). by rewrite elem_of_map_to_list.
Qed.

(** Ranging over the whole map and deleting each visited table leaves
    the map object empty. *)
Lemma ranges_store_drained m visits :
  ranges_store m visits → foldl (λ m v, delete v.1 m) m visits = ∅.
Proof.
  intros Hv%ranges_store_fst. apply map_eq. intros k.
  rewrite lookup_foldl_delete, lookup_empty. case_decide as Hk; [done|].
  destruct (m !! k) as [s|] eqn:Hl; [|done]. exfalso. apply Hk.
  rewrite Hv. apply list_elem_of_fmap. exists (k, s).
  by rewrite elem_of_map_to_list.
Qed.
(** ** One call of [FreezeAndBatchByTable] *)

Lemma FreezeAndBatchByTable_ok visits bs σ r l :
  MapStore r = Some l → (0 ≤ bs ≤ max_cap)%Z →
  ∃ batches σ',
    FreezeAndBatchByTable visits bs σ r = Ok (batches, σ') ∧
    pairs_of batches = visit_pairs visits ∧
    Forall (λ b, ∃ t, batch_ok bs t b) batches ∧
    deref σ' l = foldl (λ m v, delete v.1 m) (deref σ l) visits.
Proof.
  intros Hl Hbs. unfold FreezeAndBatchByTable. rewrite Hl.
  destruct (table_loop_ok bs l visits σ
              {| MapStore := Some l; SortedStore := [];
                 RowCount := RowCount r;
                 EmitLogPerRowCount := EmitLogPerRowCount r |} Hbs)
    as (σ' & new & -> & Hp & Hb & Hd & He & _).
  cbn [mbind outcome_bind SortedStore app]. exists new, σ'. split_and!; [done..|].
  destruct visits as [|v visits]; [by rewrite (He eq_refl)|by apply Hd].
Qed.

(** On a store whose map object is empty the call returns no batch and
    leaves the memory alone, whatever the batch size. *)
Lemma FreezeAndBatchByTable_drained bs σ r l res :
  MapStore r = Some l → deref σ l = ∅ →
  FreezeAndBatchByTable_returns bs σ r res → res = Ok ([], σ).
Proof.
  intros Hl Hm (visits & (entries & Hperm & Hall) & <-).
  unfold contents, ranges_map in Hperm. rewrite Hl, Hm, map_to_list_empty in Hperm.
  apply Permutation_nil_r in Hperm as ->. inversion Hall; subst.
  unfold FreezeAndBatchByTable. by rewrite Hl.
Qed.

(** A call that returns leaves the map object empty. *)
Lemma FreezeAndBatchByTable_drains bs σ r l batches σ' :
  MapStore r = Some l →
  FreezeAndBatchByTable_returns bs σ r (Ok (batches, σ')) →
  deref σ' l = ∅.
Proof.
  intros Hl (visits & Hv & Hrun). unfold contents in Hv. rewrite Hl in Hv.
  destruct (decide (0 ≤ bs ≤ max_cap)%Z) as [Hbs|Hbs].
  - destruct (FreezeAndBatchByTable_ok visits bs σ r l Hl Hbs)
      as (b & σ'' & Hrun' & _ & _ & Hd).
    rewrite Hrun' in Hrun. injection Hrun as -> ->.
    rewrite Hd. by apply ranges_store_drained.
  - unfold FreezeAndBatchByTable in Hrun. rewrite Hl in Hrun.
    destruct visits as [|v visits].
    + simpl in Hrun. injection Hrun as _ <-.
      destruct Hv as (entries & Hperm & Hall). inversion Hall; subst.
      unfold ranges_map in Hperm. symmetry in Hperm.
      apply Permutation_nil_r in Hperm. by apply map_to_list_empty_iff.
    + cbn [table_loop] in Hrun. by rewrite table_step_panics in Hrun by lia.
Qed.

(** ** Sequences of [Add] *)

Lemma NewReverifyStore_holds σ :
  holds (NewReverifyStore σ).1 (NewReverifyStore σ).2 [].
Proof.
  exists (fresh (dom (maps σ))). simpl. split_and!; [done..|].
  intros t pk. rewrite deref_store_map, lookup_empty. simpl.
  split; [by intros ?%not_elem_of_empty|by intros ?%elem_of_nil].
Qed.

Lemma Add_holds e σ r ps :
  holds σ r ps →
  ∃ σ' r', Add e σ r = Ok (σ', r') ∧
    holds σ' r' (ps ++ [(NewTableIdentifierFromSchemaTable (EntryTable e), Pk e)]).
Proof.
  intros (l & Hl & Hlog & Hps). unfold Add. rewrite Hl.
  set (tid := NewTableIdentifierFromSchemaTable (EntryTable e)).
  set (m1 := match deref σ l !! tid with
             | Some _ => deref σ l
             | None => <[tid := ∅]> (deref σ l)
             end).
  assert (Hm1 : ∀ t, default ∅ (m1 !! t) = default ∅ (deref σ l !! t)).
  { intros t. unfold m1. destruct (deref σ l !! tid) eqn:Htid; [done|].
    destruct (decide (tid = t)) as [<-|?].
    - by rewrite lookup_insert_eq, Htid.
    - by rewrite lookup_insert_ne. }
  destruct (decide (Pk e ∈ default ∅ (m1 !! tid))) as [Hin|Hout].
  - eexists _, _. split; [done|]. exists l. split_and!; [done..|].
    intros t pk. rewrite deref_store_map, Hm1, Hps, elem_of_app, list_elem_of_singleton.
    split; [by left|]. intros [?|[= -> ->]]; [done|].
    apply Hps. by rewrite <- Hm1.
  - cbn [EmitLogPerRowCount]. apply N.eqb_neq in Hlog as Hlog'. rewrite Hlog'.
    eexists _, _. split; [done|]. exists l. split_and!; [done..|].
    intros t pk. rewrite deref_insert.
    rewrite elem_of_app, list_elem_of_singleton, <- Hps, <- Hm1.
    destruct (decide (tid = t)) as [<-|?].
    + rewrite lookup_insert_eq. simpl. rewrite elem_of_union, elem_of_singleton.
      split; [intros [->|?]; auto|]. intros [?|[= ->]]; auto.
    + rewrite lookup_insert_ne by done.
      split; [by left|]. intros [?|[= ? ?]]; done.
Qed.

Lemma AddAll_holds entries : ∀ σ r ps,
  holds σ r ps →
  ∃ σ' r', AddAll entries σ r = Ok (σ', r') ∧ holds σ' r' (ps ++ added_pairs entries).
Proof.
  induction entries as [|e entries IH]; intros σ r ps Hps; cbn [AddAll].
  - exists σ, r. by rewrite app_nil_r.
  - destruct (Add_holds e σ r ps Hps) as (σ1 & r1 & -> & H1).
    cbn [mbind outcome_bind].
    destruct (IH σ1 r1 _ H1) as (σ' & r' & -> & H').
    exists σ', r'. split; [done|]. by rewrite <- app_assoc in H'.
Qed.
Lemma FreezeAndBatchByTable_returns_pairs bs σ r l batches σ' :
  MapStore r = Some l →
  FreezeAndBatchByTable_returns bs σ r (Ok (batches, σ')) →
  ∃ visits, ranges_store (deref σ l) visits ∧ pairs_of batches = visit_pairs visits.
Proof.
  intros Hl (visits & Hv & Hrun). unfold contents in Hv. rewrite Hl in Hv.
  exists visits. split; [done|].
  destruct (decide (0 ≤ bs ≤ max_cap)%Z) as [Hbs|Hbs].
  - destruct (FreezeAndBatchByTable_ok visits bs σ r l Hl Hbs)
      as (b & σ'' & Hrun' & Hp & _).
    rewrite Hrun' in Hrun. by injection Hrun as -> ->.
  - unfold FreezeAndBatchByTable in Hrun. rewrite Hl in Hrun.
    destruct visits as [|v visits].
    + simpl in Hrun. by injection Hrun as <- _.
    + cbn [table_loop] in Hrun. by rewrite table_step_panics in Hrun by lia.
Qed.

Lemma ranges_store_singleton t pk visits :
  ranges_store {[ t := {[ pk ]} ]} visits → visits = [(t, [pk])].
Proof.
  intros (entries & Hperm & Hall). unfold ranges_map in Hperm.
  rewrite map_to_list_singleton in Hperm.
  apply Permutation_singleton_r in Hperm as ->.
  inversion Hall as [|e [t' pks] ? ? [Ht Hpks] Hnil]; subst.
  inversion Hnil; subst. simpl in *. subst t'.
  unfold ranges_set in Hpks. rewrite elements_singleton in Hpks.
  by apply Permutation_singleton_r in Hpks as ->.
Qed.
(** Three keys cut with batch size 2, visited in increasing order: a full
    batch and the rest; the map object is left empty. *)
Example FreezeAndBatchByTable_example :
  FreezeAndBatchByTable [(Sample.tid1, [1%N; 2%N; 3%N])] 2 Sample.mem_123 Sample.store_123
  = Ok ([ {| Pks := [1%N; 2%N]; Table := Sample.tid1 |};
          {| Pks := [3%N]; Table := Sample.tid1 |} ], Sample.mem_drained).
Proof. by vm_compute. Qed.

(** A negative batch size panics at the first [make]. *)
Example FreezeAndBatchByTable_negative :
  FreezeAndBatchByTable [(Sample.tid1, [1%N; 2%N; 3%N])] (-1) Sample.mem_123 Sample.store_123
  = Panic "makeslice: cap out of range".
Proof. by vm_compute. Qed.

(** So does a batch size that is too large a capacity: the largest [int],
    and the first one above [max_cap]; [max_cap] itself is accepted. *)
Example FreezeAndBatchByTable_too_large :
  FreezeAndBatchByTable [(Sample.tid1, [42%N])] (2 ^ 63 - 1) Sample.mem_42 Sample.store_42
  = Panic "makeslice: cap out of range" ∧
  FreezeAndBatchByTable [(Sample.tid1, [42%N])] (max_cap + 1) Sample.mem_42 Sample.store_42
  = Panic "makeslice: cap out of range" ∧
  FreezeAndBatchByTable [(Sample.tid1, [42%N])] max_cap Sample.mem_42 Sample.store_42
  = Ok ([Sample.batch_42], Sample.mem_drained).
Proof. by vm_compute. Qed.
End store_facts.

(** C3. After any sequence of [Add] calls on a new store, the calls all
    return; [FreezeAndBatchByTable] then has a run, and every run returns
    when the batch size is a capacity that [make] accepts, from 0 to
    [Store.max_cap]; and for every batch size, whatever batches a run
    returns, in whatever order the runtime ranges, hold every added
    [(table, pk)] pair exactly once and no other pair. *)
Theorem freeze_after_adds_exactly_once (σ0 : Store.Mem)
    (entries : list ReverifyEntry) (batchsize : Z) :
  ∃ σ r,
    Store.AddAll entries (Store.NewReverifyStore σ0).1 (Store.NewReverifyStore σ0).2
      = Ok (σ, r) ∧
    (∃ res, Store.FreezeAndBatchByTable_returns batchsize σ r res) ∧
    ((0 ≤ batchsize ≤ Store.max_cap)%Z →
       ∀ res, Store.FreezeAndBatchByTable_returns batchsize σ r res →
         ∃ batches σ', res = Ok (batches, σ')) ∧
    ∀ batches σ',
      Store.FreezeAndBatchByTable_returns batchsize σ r (Ok (batches, σ')) →
      NoDup (Store.pairs_of batches) ∧
      ∀ p, p ∈ Store.pairs_of batches ↔ p ∈ Store.added_pairs entries.
Proof.
  destruct (AddAll_holds entries _ _ [] (NewReverifyStore_holds σ0))
    as (σ & r & Hrun & l & Hl & _ & Hps).
  exists σ, r. split_and!; [done| | |].
  - eexists _, (Store.canonical_visits (Store.contents σ r)).
    split; [apply ranges_store_canonical|done].
  - intros Hbs res (visits & _ & <-).
    destruct (FreezeAndBatchByTable_ok visits batchsize σ r l Hl Hbs)
      as (batches & σ' & -> & _).
    by exists batches, σ'.
  - intros batches σ' Hret.
    destruct (FreezeAndBatchByTable_returns_pairs _ _ _ _ _ _ Hl Hret)
      as (visits & Hv & ->).
    destruct (ranges_store_pairs _ _ Hv) as [Hnd Hin]. split; [done|].
    intros [t pk]. by rewrite Hin, Hps.
Qed.

(** C8. On a live store (its map is not nil) with any contents, and for
    every batch size of at least one: [FreezeAndBatchByTable] has a run;
    every run returns when the batch size is a capacity that [make]
    accepts, that is at most [Store.max_cap]; and every batch a run
    returns, in whatever order the runtime ranges and however large the
    batch size, has between one and [batchsize] keys. *)
Theorem freeze_batch_bound (batchsize : Z) (σ : Store.Mem) (r : Store.ReverifyStore) :
  (1 ≤ batchsize)%Z → is_Some (Store.MapStore r) →
  (∃ res, Store.FreezeAndBatchByTable_returns batchsize σ r res) ∧
  ((batchsize ≤ Store.max_cap)%Z →
     ∀ res, Store.FreezeAndBatchByTable_returns batchsize σ r res →
       ∃ batches σ', res = Ok (batches, σ')) ∧
  ∀ batches σ',
    Store.FreezeAndBatchByTable_returns batchsize σ r (Ok (batches, σ')) →
    Forall (λ b, (1 ≤ Z.of_nat (length (Pks b)) ≤ batchsize)%Z) batches.
Proof.
  intros Hbs [l Hl]. split_and!.
  - eexists _, (Store.canonical_visits (Store.contents σ r)).
    split; [apply ranges_store_canonical|done].
  - intros Hcap res (visits & _ & <-).
    destruct (FreezeAndBatchByTable_ok visits batchsize σ r l Hl)
      as (batches & σ' & -> & _); [lia|].
    by exists batches, σ'.
  - intros batches σ' (visits & _ & Hrun).
    destruct (decide (batchsize ≤ Store.max_cap)%Z) as [Hcap|Hcap].
    + destruct (FreezeAndBatchByTable_ok visits batchsize σ r l Hl)
        as (batches' & σ'' & Hrun' & _ & Hb & _); [lia|].
      rewrite Hrun' in Hrun. injection Hrun as -> ->.
      eapply Forall_impl; [exact Hb|]. intros b (t & _ & Hlen). simpl in Hlen. lia.
    + unfold Store.FreezeAndBatchByTable in Hrun. rewrite Hl in Hrun.
      destruct visits as [|v visits].
      * simpl in Hrun. by injection Hrun as <- _.
      * cbn [Store.table_loop] in Hrun. by rewrite table_step_panics in Hrun by lia.
Qed.

Lemma freeze_batch_bound_witness :
  (1 ≤ 2)%Z ∧ is_Some (Store.MapStore Sample.store_123) ∧
  ((∃ res, Store.FreezeAndBatchByTable_returns 2 Sample.mem_123 Sample.store_123 res) ∧
   ((2 ≤ Store.max_cap)%Z →
      ∀ res, Store.FreezeAndBatchByTable_returns 2 Sample.mem_123 Sample.store_123 res →
        ∃ batches σ', res = Ok (batches, σ')) ∧
   ∀ batches σ',
     Store.FreezeAndBatchByTable_returns 2 Sample.mem_123 Sample.store_123
       (Ok (batches, σ')) →
     Forall (λ b, (1 ≤ Z.of_nat (length (Pks b)) ≤ 2)%Z) batches).
Proof.
  split; [lia|]. split; [by eexists|].
  apply (freeze_batch_bound 2 Sample.mem_123 Sample.store_123); [lia|by eexists].
Defined.

(** C2. [FreezeAndBatchByTable] evaluated twice on the store that holds
    the single pair [(t1, 42)], with batch size 1: the store is what one
    [Add] on a new store leaves; the first call returns the batch
    [{Pks: [42], Table: t1}]; the second call on the same store returns
    no batch at all.  The method has a value receiver, so the assignments
    that would record the frozen batches and the nil map are made to a
    copy, while [delete] empties the map the store still refers to. *)
Theorem FreezeAndBatchByTable_second_call_empty :
  Store.AddAll [Sample.entry 42]
     (Store.NewReverifyStore Store.empty_mem).1 (Store.NewReverifyStore Store.empty_mem).2
    = Ok (Sample.mem_42, Sample.store_42) ∧
  Store.FreezeAndBatchByTable_returns 1 Sample.mem_42 Sample.store_42
    (Ok ([Sample.batch_42], Sample.mem_drained)) ∧
  (∀ res, Store.FreezeAndBatchByTable_returns 1 Sample.mem_42 Sample.store_42 res →
     res = Ok ([Sample.batch_42], Sample.mem_drained)) ∧
  (∀ res, Store.FreezeAndBatchByTable_returns 1 Sample.mem_drained Sample.store_42 res →
     res = Ok ([], Sample.mem_drained)).
Proof.
  assert (Hc : Store.contents Sample.mem_42 Sample.store_42
               = {[ Sample.tid1 := {[ 42%N ]} ]}).
  { unfold Store.contents, Store.deref. simpl. by rewrite lookup_singleton_eq. }
  assert (Hrun : Store.FreezeAndBatchByTable [(Sample.tid1, [42%N])] 1
                   Sample.mem_42 Sample.store_42
                 = Ok ([Sample.batch_42], Sample.mem_drained)).
  { by vm_compute. }
  split_and!.
  - by vm_compute.
  - exists [(Sample.tid1, [42%N])]. split; [|done]. rewrite Hc.
    exists [(Sample.tid1, {[ 42%N ]})]. split.
    + unfold ranges_map. by rewrite map_to_list_singleton.
    + constructor; [|constructor]. split; [done|].
      unfold ranges_set. simpl. by rewrite elements_singleton.
  - intros res (visits & Hv & <-). rewrite Hc in Hv.
    by apply ranges_store_singleton in Hv as ->.
  - intros res. apply (FreezeAndBatchByTable_drained 1 _ _ 1%positive); [done|].
    unfold Store.deref. simpl. by rewrite lookup_singleton_eq.
Qed.

Section listener_facts.
Import Listener.

Lemma listener_loop_prefix ignored rest pre : ∀ offered,
  Forall (λ e, tableIsIgnored ignored (TableSchema e) = true ∨ (PK e).2 = None) pre →
  listener_loop ignored (pre ++ rest) offered =
  listener_loop ignored rest (offered ++ entries_of ignored pre).
Proof.
  induction pre as [|e pre IH]; intros offered Hpre.
  - unfold entries_of. simpl. by rewrite app_nil_r.
  - apply Forall_cons in Hpre as [He Hpre]. cbn [app listener_loop].
    unfold entries_of. rewrite filter_cons.
    destruct (tableIsIgnored ignored (TableSchema e)) eqn:Hig.
    + rewrite decide_False by done. by apply IH.
    + rewrite decide_True by done. destruct He as [?|He]; [done|].
      destruct (PK e) as [pk err] eqn:HPK. simpl in He. subst err.
      rewrite IH by done. unfold entries_of. cbn [fmap list_fmap].
      by rewrite HPK, <- app_assoc.
Qed.
End listener_facts.

(** C6. Once [verifyDuringCutoverStarted] is set, the listener returns the
    error "cutover has started but received binlog event!" for every event
    batch and sends no entry on the ingestion channel. *)
Theorem listener_rejects_after_cutover (v : IterativeVerifier) (evs : list DMLEvent) :
  verifyDuringCutoverStarted v = true →
  Listener.binlogEventListener v evs =
    ([], Some "cutover has started but received binlog event!").
Proof. intros Hflag. unfold Listener.binlogEventListener. by rewrite Hflag. Qed.

Lemma listener_rejects_after_cutover_witness :
  verifyDuringCutoverStarted Sample.verifier_cutover = true ∧
  Listener.binlogEventListener Sample.verifier_cutover [Sample.ev_ok 7; Sample.ev_bad] =
    ([], Some "cutover has started but received binlog event!").
Proof.
  split; [reflexivity|].
  apply (listener_rejects_after_cutover Sample.verifier_cutover); reflexivity.
Defined.

(** ** The listener and the channel *)

Section channel_facts.
Import Controller.

Lemma only_store_refl v : only_store v v.
Proof. unfold only_store. by destruct v. Qed.

Lemma only_store_trans v1 v2 v3 : only_store v1 v2 → only_store v2 v3 → only_store v1 v3.
Proof. unfold only_store. intros -> ->. done. Qed.

(** A send that completes has added the entry to the store and changed
    nothing else of the verifier. *)
Lemma send_only_store e v σ v' σ' :
  send e (v, σ) = Ok (v', σ') → only_store v v'.
Proof.
  unfold send. destruct (reverifyChan v) as [[]|]; [|done..].
  destruct (wg v); [|done]. destruct (reverifyStore v) as [r|]; [|done].
  destruct (Store.Add e σ r) as [[σ1 r1]| |]; [|done..]. simpl.
  intros [= <- <-]. unfold only_store. by destruct v.
Qed.

Lemma send_listening e st ps :
  listening st ps →
  ∃ st', send e st = Ok st' ∧
    listening st' (ps ++ [(NewTableIdentifierFromSchemaTable (EntryTable e), Pk e)]).
Proof.
  destruct st as [v σ]. intros (Hchan & [n Hwg] & r & Hr & Hholds). simpl in *.
  unfold send. rewrite Hchan, Hwg, Hr.
  destruct (Add_holds e σ r ps Hholds) as (σ' & r' & -> & Hholds').
  simpl. eexists. split; [done|]. split_and!; simpl; [done|by eexists|].
  by exists r'.
Qed.

Lemma send_all_only_store entries : ∀ v σ v' σ',
  send_all entries (v, σ) = Ok (v', σ') → only_store v v'.
Proof.
  induction entries as [|e entries IH]; intros v σ v' σ'; cbn [send_all].
  - intros [= <- <-]. apply only_store_refl.
  - destruct (send e (v, σ)) as [[v1 σ1]| |] eqn:Hsend; [|done..].
    cbn [mbind outcome_bind]. intros Hrest%IH.
    eapply only_store_trans; [by eapply send_only_store|done].
Qed.

Lemma send_all_listening entries : ∀ st ps,
  listening st ps →
  ∃ st', send_all entries st = Ok st' ∧ listening st' (ps ++ Store.added_pairs entries).
Proof.
  induction entries as [|e entries IH]; intros st ps Hst; cbn [send_all].
  - exists st. by rewrite app_nil_r.
  - destruct (send_listening e st ps Hst) as (st1 & -> & H1).
    cbn [mbind outcome_bind].
    destruct (IH st1 _ H1) as (st' & -> & H').
    exists st'. split; [done|]. by rewrite <- app_assoc in H'.
Qed.
End channel_facts.

Section listener_channel_facts.
Import Listener Controller.

Lemma listener_loop_acc ignored evs : ∀ offered,
  listener_loop ignored evs offered =
  (offered ++ (listener_loop ignored evs []).1, (listener_loop ignored evs []).2).
Proof.
  induction evs as [|ev evs IH]; intros offered; cbn [listener_loop].
  - by rewrite app_nil_r.
  - destruct (tableIsIgnored ignored (TableSchema ev)); [apply IH|].
    destruct (PK ev) as [pk [e|]].
    + by rewrite app_nil_r.
    + rewrite (IH (offered ++ _)), (IH ([] ++ _)). simpl. by rewrite <- app_assoc.
Qed.

Lemma send_all_app entries1 entries2 : ∀ st,
  send_all (entries1 ++ entries2) st = (st' ← send_all entries1 st; send_all entries2 st').
Proof.
  induction entries1 as [|e entries1 IH]; intros st; cbn [send_all app]; [done|].
  destruct (send e st) as [st1| |]; [|done..]. cbn [mbind outcome_bind]. apply IH.
Qed.

(** The loop run against the channel carries out the sends the listener
    asks for, in order, and returns its value after the last of them. *)
Lemma listen_sends evs : ∀ st,
  listen evs st =
  (st' ← send_all (listener_loop (IgnoredTables st.1) evs []).1 st;
   Ok ((listener_loop (IgnoredTables st.1) evs []).2, st')).
Proof.
  induction evs as [|ev evs IH]; intros st; cbn [listen listener_loop].
  - done.
  - destruct (tableIsIgnored (IgnoredTables st.1) (TableSchema ev)); [apply IH|].
    destruct (PK ev) as [pk [e|]]; [done|].
    rewrite listener_loop_acc. cbn [fst snd app send_all].
    destruct (send _ st) as [st1| |] eqn:Hsend; [|done..].
    cbn [mbind outcome_bind]. rewrite IH.
    destruct st as [v σ], st1 as [v1 σ1].
    apply send_only_store in Hsend. unfold only_store in Hsend.
    by rewrite Hsend.
Qed.

Lemma on_binlog_events_sends evs st :
  on_binlog_events evs st =
  (st' ← send_all (binlogEventListener st.1 evs).1 st;
   Ok ((binlogEventListener st.1 evs).2, st')).
Proof.
  unfold on_binlog_events, binlogEventListener.
  destruct (verifyDuringCutoverStarted st.1); [done|]. apply listen_sends.
Qed.

(** Before [Initialize] the channel is nil: the listener blocks on its
    first send. *)
Example on_binlog_events_nil_channel :
  on_binlog_events [Sample.ev_ok 7] (Sample.verifier_listening, Store.empty_mem) = Blocked.
Proof. by vm_compute. Qed.

(** While the verifier is listening, every send completes: the loop gets
    through every event up to the first one that fails. *)
Lemma listen_prefix pre rest st ps :
  Forall (λ e, tableIsIgnored (IgnoredTables st.1) (TableSchema e) = true
               ∨ (PK e).2 = None) pre →
  listening st ps →
  ∃ st', send_all (entries_of (IgnoredTables st.1) pre) st = Ok st' ∧
         listen (pre ++ rest) st = listen rest st' ∧
         only_store st.1 st'.1 ∧
         listening st' (ps ++ Store.added_pairs (entries_of (IgnoredTables st.1) pre)).
Proof.
  intros Hpre Hst.
  destruct (send_all_listening (entries_of (IgnoredTables st.1) pre) st ps Hst)
    as (st' & Hsend & Hst').
  assert (only_store st.1 st'.1) as Hframe.
  { destruct st as [v σ], st' as [v' σ']. by eapply send_all_only_store. }
  exists st'. split_and!; [done| |done..].
  rewrite !listen_sends, listener_loop_prefix by done.
  rewrite (listener_loop_acc _ rest). cbn [fst snd app].
  assert (IgnoredTables st'.1 = IgnoredTables st.1) as ->.
  { unfold only_store in Hframe. by rewrite Hframe. }
  by rewrite send_all_app, Hsend.
Qed.
End listener_channel_facts.

(** C10, as stated, fails once the cutover flag is set: the listener then
    returns the protocol error, not the error of the event whose key
    cannot be extracted.  The state is the one [VerifyDuringCutover]
    leaves. *)
Lemma listener_failure_after_cutover :
  ¬ Controller.stops_at_first_failure Sample.state_finished [Sample.ev_bad].
Proof.
  intros H.
  destruct (H [] Sample.ev_bad [] "no primary key" eq_refl) as (st' & _ & Hrun).
  { split_and!; [constructor|reflexivity..]. }
  assert (verifyDuringCutoverStarted Sample.state_finished.1 = true) as Hflag
    by (by vm_compute).
  unfold Controller.on_binlog_events in Hrun. rewrite Hflag in Hrun.
  discriminate Hrun.
Qed.

(** C10, amended.  While [verifyDuringCutoverStarted] is not set and the
    verifier is listening (the channel open, the consumer running, the
    store live), the listener stops at the first event whose table is not
    ignored and whose key cannot be extracted: it returns that error; an
    entry has been sent, and received, for every earlier event whose table
    is not ignored, in order; and nothing is sent for the failing event or
    the events after it. *)
Theorem listener_stops_at_first_failure (st : IterativeVerifier * Store.Mem)
    (ps : list (TableIdentifier * uint64)) (evs : list DMLEvent) :
  verifyDuringCutoverStarted st.1 = false →
  Controller.listening st ps →
  Controller.stops_at_first_failure st evs.
Proof.
  intros Hflag Hst pre ev post err -> (Hpre & Hig & Herr).
  destruct (listen_prefix pre (ev :: post) st ps Hpre Hst)
    as (st' & Hsend & Hrun & Hframe & _).
  exists st'. split; [done|].
  unfold Controller.on_binlog_events. rewrite Hflag, Hrun.
  cbn [Controller.listen].
  assert (IgnoredTables st'.1 = IgnoredTables st.1) as ->.
  { unfold Controller.only_store in Hframe. by rewrite Hframe. }
  rewrite Hig. destruct (PK ev) as [pk e]. simpl in Herr. by subst e.
Qed.

Lemma listener_stops_at_first_failure_witness :
  verifyDuringCutoverStarted Sample.state_listening.1 = false ∧
  Controller.listening Sample.state_listening [] ∧
  Controller.stops_at_first_failure Sample.state_listening
    [Sample.ev_ok 7; Sample.ev_skipped; Sample.ev_ok 9; Sample.ev_bad; Sample.ev_ok 11].
Proof.
  assert (Controller.listening Sample.state_listening []) as Hst.
  { split_and!; [by vm_compute|by eexists|].
    eexists. split; [by vm_compute|].
    exists 1%positive. split_and!; [done..|]. intros t pk.
    change (Store.deref Sample.state_listening.2 1%positive)
      with (∅ : gmap TableIdentifier (gset N)).
    rewrite lookup_empty. simpl.
    split; [by intros ?%not_elem_of_empty|by intros ?%elem_of_nil]. }
  split; [by vm_compute|]. split; [exact Hst|].
  apply (listener_stops_at_first_failure Sample.state_listening [] _
           ltac:(by vm_compute) Hst).
Defined.

Section controller_facts.
Import Controller.

Lemma collect_no_result n slots result err :
  Forall (λ i, (i < n)%nat) slots →
  collect (replicate n None) slots result err = Ok (result, err).
Proof.
  induction 1 as [|i slots Hi _ IH]; [done|]. cbn [collect].
  by rewrite lookup_replicate_2.
Qed.

Context (in_empty : string → string)
  (db_query : nat → string → list N → nat → list (N * list byte) * option error)
  (compareHashes_run : gmap N (list byte) → gmap N (list byte) → list N)
  (freeze_visits : gmap TableIdentifier (gset N) → list (TableIdentifier * list N))
  (worker_of : nat → nat).

(** With nothing to reverify, the cutover verification returns the zero
    [VerificationResult], whose [DataCorrect] is false, and a nil error:
    no worker has a result, so the loop over the result slots assigns
    nothing. *)
Lemma VerifyDuringCutover_nothing_to_reverify v σ r l config n :
  reverifyChan v = Some chan_open → wg v = Some n →
  reverifyStore v = Some r → Store.MapStore r = Some l → Store.deref σ l = ∅ →
  Store.ranges_store ∅ (freeze_visits ∅) →
  CursorConfig v = Some config → logger v = Some () →
  ∃ v', VerifyDuringCutover in_empty db_query compareHashes_run freeze_visits
          worker_of (v, σ)
        = Ok (({| DataCorrect := false; Message := "" |}, None), (v', σ)).
Proof.
  intros Hchan Hwg Hr Hl Hempty Hvisits Hconfig Hlog.
  destruct Hvisits as (entries & Hperm & Hall). unfold ranges_map in Hperm.
  rewrite map_to_list_empty in Hperm. apply Permutation_nil_r in Hperm as ->.
  apply Forall2_nil_inv_l in Hall as Hnil.
  unfold VerifyDuringCutover. simpl. rewrite Hchan. simpl. rewrite Hwg. simpl.
  rewrite Hr. simpl. rewrite Hconfig. simpl.
  unfold Store.contents, Store.FreezeAndBatchByTable. rewrite Hl, Hempty, Hnil.
  simpl. unfold log. simpl. rewrite Hlog. simpl.
  unfold WorkerPool_Run. simpl.
  rewrite collect_no_result; [by eexists|].
  apply Forall_forall. intros i Hi%elem_of_seq. lia.
Qed.
(** ** The pool over the batches and the loop over its results *)

Lemma ErroredOrFailed_false rae :
  ErroredOrFailed rae = false ↔ Error rae = None ∧ DataCorrect (Result rae) = true.
Proof.
  unfold ErroredOrFailed. rewrite orb_false_iff, negb_false_iff, bool_decide_eq_false.
  split; intros [H1 H2]; (split; [|done]).
  - by destruct (Error rae); [destruct H1|].
  - by rewrite H1; intros [].
Qed.

(** A batch verification that neither errors nor fails returns
    [{true, ""}] and a nil error. *)
Lemma verifyPksDuringCutover_matched v table pks vr err :
  verifyPksDuringCutover in_empty db_query compareHashes_run v table pks = Ok (vr, err) →
  ErroredOrFailed {| Result := vr; Error := err |} = false →
  {| Result := vr; Error := err |} = matched.
Proof.
  intros Hrun [He Hc]%ErroredOrFailed_false. simpl in *. subst err.
  unfold verifyPksDuringCutover in Hrun.
  destruct (compareFingerprints _ _ _ _ _ _) as [[mismatched [e|]]| |]; simplify_eq/=.
  destruct mismatched; by simplify_eq/=.
Qed.

Lemma reverify_batch_shape v allBatches i res :
  reverify_batch in_empty db_query compareHashes_run v allBatches i = Ok res →
  ∃ rae,
    res = (Some rae,
           if ErroredOrFailed rae then Some "reverify errored or failed" else None) ∧
    (ErroredOrFailed rae = false → rae = matched).
Proof.
  unfold reverify_batch. intros Hrun.
  destruct (allBatches !! i) as [b|]; [|done].
  destruct (TableSchemaCache v ≫= _) as [table|]; [|done].
  destruct (verifyPksDuringCutover _ _ _ _ _ _) as [[vr err]| |] eqn:Hv; [|done..].
  simpl in Hrun. exists {| Result := vr; Error := err |}. split.
  - by destruct (ErroredOrFailed _); simplify_eq.
  - intros Hno. by eapply verifyPksDuringCutover_matched.
Qed.

Lemma collect_matched results slots : ∀ result err,
  Forall (λ i, ∃ o, results !! i = Some o ∧ slot_ok o) slots →
  ∃ result' err',
    collect results slots result err = Ok (result', err') ∧
    ((result', err') = (result, err) ∨ (result', err') = (Result matched, Error matched)) ∧
    ((∃ w, w ∈ slots ∧ results !! w = Some (Some matched)) →
     (result', err') = (Result matched, Error matched)).
Proof.
  induction slots as [|i slots IH]; intros result err Hslots.
  - exists result, err. split_and!; [done|by left|].
    by intros (w & ?%elem_of_nil & _).
  - apply Forall_cons in Hslots as [(o & Hi & [->| ->]) Hslots]; cbn [collect]; rewrite Hi.
    + destruct (IH result err Hslots) as (r' & e' & -> & Hor & Hsome).
      exists r', e'. split_and!; [done..|].
      intros (w & [->|Hw]%elem_of_cons & Hlook); [congruence|eauto].
    + change (ErroredOrFailed matched) with false. cbv iota.
      destruct (IH (Result matched) (Error matched) Hslots) as (r' & e' & -> & Hor & _).
      exists r', e'. split_and!; [done| |].
      * right. by destruct Hor.
      * intros _. by destruct Hor.
Qed.

Lemma collect_failed results slots k bad : ∀ result err,
  results !! k = Some (Some bad) → ErroredOrFailed bad = true → k ∈ slots →
  Forall (λ i, i ≠ k → ∃ o, results !! i = Some o ∧ slot_ok o) slots →
  collect results slots result err = Ok (Result bad, Error bad).
Proof.
  induction slots as [|i slots IH]; intros result err Hk Hbad Hin Hslots.
  - by apply elem_of_nil in Hin.
  - apply Forall_cons in Hslots as [Hi Hslots]. cbn [collect].
    destruct (decide (i = k)) as [->|Hne].
    + by rewrite Hk, Hbad.
    + apply elem_of_cons in Hin as [->|Hin]; [done|].
      destruct (Hi Hne) as (o & -> & [->| ->]); [by apply IH|].
      change (ErroredOrFailed matched) with false. cbv iota. by apply IH.
Qed.

(** The pool on the jobs [jobs], from result slots that are nil or hold a
    matched result: either every job matched, or it stopped at the first
    job that did not, whose result is in the slot of its worker. *)
Lemma pool_jobs_reverify v allBatches jobs : ∀ results,
  Forall slot_ok results →
  (∀ i, i ∈ jobs → (worker_of i < length results)%nat) →
  (∀ i, i ∈ jobs →
     ∃ res, reverify_batch in_empty db_query compareHashes_run v allBatches i = Ok res) →
  ∃ results' e,
    pool_jobs worker_of
      (λ i (_ : ()),
         res ← reverify_batch in_empty db_query compareHashes_run v allBatches i;
         Ok ((), res))
      jobs () results = Ok ((), (results', e)) ∧
    length results' = length results ∧
    ((Forall (λ i, reverify_batch in_empty db_query compareHashes_run v allBatches i
                   = Ok (Some matched, None)) jobs ∧
      Forall slot_ok results' ∧
      (∀ w, results !! w = Some (Some matched) → results' !! w = Some (Some matched)) ∧
      (∀ i, i ∈ jobs → results' !! worker_of i = Some (Some matched)))
     ∨
     (∃ pre k post bad,
        jobs = pre ++ k :: post ∧
        Forall (λ i, reverify_batch in_empty db_query compareHashes_run v allBatches i
                     = Ok (Some matched, None)) pre ∧
        reverify_batch in_empty db_query compareHashes_run v allBatches k
          = Ok (Some bad, Some "reverify errored or failed") ∧
        ErroredOrFailed bad = true ∧
        results' !! worker_of k = Some (Some bad) ∧
        ∀ w, (w < length results)%nat → w ≠ worker_of k →
             ∃ o, results' !! w = Some o ∧ slot_ok o)).
Proof.
  induction jobs as [|i jobs IH]; intros results Hok Hworker Hruns.
  - exists results, None. split_and!; [done..|]. left.
    split_and!; [done..|]. by intros i ?%elem_of_nil.
  - cbn [pool_jobs].
    assert (worker_of i < length results)%nat as Hw by (apply Hworker; left).
    destruct results as [|o0 results0] eqn:Hres; [simpl in Hw; lia|]. rewrite <- Hres in *.
    clear Hres o0 results0.
    destruct (Hruns i) as (res & Hrun); [left|]. rewrite Hrun. cbn [mbind outcome_bind].
    destruct (reverify_batch_shape _ _ _ _ Hrun) as (rae & -> & Hmatched).
    destruct (ErroredOrFailed rae) eqn:Hrae.
    + (* the job failed: the pool stops here *)
      eexists _, _. split_and!; [done|by rewrite length_insert|].
      right. exists [], i, jobs, rae. split_and!; [done..| |].
      * by apply list_lookup_insert_eq.
      * intros w Hlt Hne. rewrite list_lookup_insert_ne by done.
        destruct (lookup_lt_is_Some_2 results w Hlt) as [o Ho].
        exists o. split; [done|]. by eapply Forall_lookup_1.
    + rewrite (Hmatched eq_refl) in *.
      destruct (IH (<[worker_of i := Some matched]> results))
        as (results' & e & -> & Hlen & Hcases).
      * apply Forall_insert; [done|by right].
      * intros j Hj. rewrite length_insert. apply Hworker. by right.
      * intros j Hj. apply Hruns. by right.
      * rewrite length_insert in Hlen.
        exists results', e. split_and!; [done..|].
        destruct Hcases as [(Hall & Hok' & Hkeep & Hjobs)
                           |(pre & k & post & bad & -> & Hpre & Hk & Hbad & Hlook & Hrest)].
        -- left. split_and!; [by constructor|done| |].
           ++ intros w Hlook. apply Hkeep.
              destruct (decide (w = worker_of i)) as [->|Hne].
              ** by apply list_lookup_insert_eq.
              ** by rewrite list_lookup_insert_ne.
           ++ intros j [->|Hj]%elem_of_cons; [|by apply Hjobs].
              apply Hkeep. by apply list_lookup_insert_eq.
        -- right. exists (i :: pre), k, post, bad.
           split_and!; [done|by constructor|done..|].
           intros w Hlt Hne. apply Hrest; [by rewrite length_insert|done].
Qed.

(** With a batch or more and every worker index in range: when no batch
    verification panics, the pool and the loop return [{true, ""}] and a
    nil error if every batch matched, and the result and error of the first
    batch that did not otherwise. *)
Lemma reverify_all_result v allBatches :
  allBatches ≠ [] →
  (∀ i, (i < length allBatches)%nat → (worker_of i < Z.to_nat (Concurrency v))%nat) →
  (∀ i, (i < length allBatches)%nat →
     ∃ res, reverify_batch in_empty db_query compareHashes_run v allBatches i = Ok res) →
  (Forall (λ i, reverify_batch in_empty db_query compareHashes_run v allBatches i
                = Ok (Some matched, None)) (seq 0 (length allBatches)) ∧
   reverify_all in_empty db_query compareHashes_run worker_of v allBatches
     = Ok ({| DataCorrect := true; Message := "" |}, None))
  ∨
  (∃ pre k post bad,
     seq 0 (length allBatches) = pre ++ k :: post ∧
     Forall (λ i, reverify_batch in_empty db_query compareHashes_run v allBatches i
                  = Ok (Some matched, None)) pre ∧
     reverify_batch in_empty db_query compareHashes_run v allBatches k
       = Ok (Some bad, Some "reverify errored or failed") ∧
     ErroredOrFailed bad = true ∧
     reverify_all in_empty db_query compareHashes_run worker_of v allBatches
       = Ok (Result bad, Error bad)).
Proof.
  intros Hne Hworker Hruns. unfold reverify_all, WorkerPool_Run.
  set (n := Z.to_nat (Concurrency v)) in *.
  destruct (pool_jobs_reverify v allBatches (seq 0 (length allBatches))
              (replicate n None)) as (results & e & -> & Hlen & Hcases).
  { apply Forall_replicate. by left. }
  { intros i Hi%elem_of_seq. rewrite length_replicate. apply Hworker. lia. }
  { intros i Hi%elem_of_seq. apply Hruns. lia. }
  rewrite length_replicate in Hlen. cbn [mbind outcome_bind].
  destruct Hcases as [(Hall & Hok & _ & Hjobs)
                     |(pre & k & post & bad & Hseq & Hpre & Hk & Hbad & Hlook & Hrest)].
  - left. split; [done|].
    destruct (collect_matched results (seq 0 n) {| DataCorrect := false; Message := "" |} None)
      as (r' & e' & -> & _ & Hsome).
    { apply Forall_forall. intros w Hw%elem_of_seq.
      destruct (lookup_lt_is_Some_2 results w) as [o Ho]; [lia|].
      exists o. split; [done|]. by eapply Forall_lookup_1. }
    rewrite Hsome; [done|]. exists (worker_of 0).
    assert (0 < length allBatches)%nat as Hpos by (destruct allBatches; [done|simpl; lia]).
    split.
    + apply elem_of_seq. specialize (Hworker 0%nat Hpos). lia.
    + apply Hjobs. apply elem_of_seq. lia.
  - right. exists pre, k, post, bad. split_and!; [done..|].
    assert (k ∈ seq 0 (length allBatches)) as Hkin.
    { rewrite Hseq. apply elem_of_app. right. left. }
    apply elem_of_seq in Hkin.
    apply (collect_failed results (seq 0 n) (worker_of k)); [done..| |].
    + apply elem_of_seq. assert (worker_of k < n)%nat by (apply Hworker; lia). lia.
    + apply Forall_forall. intros w Hw%elem_of_seq Hnek.
      apply Hrest; [rewrite length_replicate; lia|done].
Qed.
(** From a verifier that is ready for cutover, [VerifyDuringCutover] is
    the freeze of the store followed by the pool and the loop. *)
Lemma VerifyDuringCutover_ready v σ r config n :
  reverifyChan v = Some chan_open → wg v = Some n →
  reverifyStore v = Some r → CursorConfig v = Some config → logger v = Some () →
  let v' := set_wg (Some 0%Z)
              (set_reverifyChan (Some chan_closed)
                 (set_verifyDuringCutoverStarted true v)) in
  VerifyDuringCutover in_empty db_query compareHashes_run freeze_visits worker_of (v, σ)
  = ('(allBatches, σ') ←
       Store.FreezeAndBatchByTable (freeze_visits (Store.contents σ r))
         (int_of_uint64 (BatchSize config)) σ r;
     res ← reverify_all in_empty db_query compareHashes_run worker_of v' allBatches;
     Ok (res, (v', σ'))).
Proof.
  intros Hchan Hwg Hr Hconfig Hlog v'.
  unfold VerifyDuringCutover. simpl. rewrite Hchan. simpl. rewrite Hwg. simpl.
  rewrite Hr. simpl. rewrite Hconfig. simpl.
  destruct (Store.FreezeAndBatchByTable _ _ _ _) as [[allBatches σ']| |]; [|done..].
  simpl. unfold log. simpl. rewrite Hlog. simpl. unfold reverify_all. simpl.
  destruct (WorkerPool_Run _ _ _ _ _) as [[[] [results e]]| |]; [|done..].
  simpl. by destruct (collect _ _ _ _) as [[result err]| |].
Qed.
End controller_facts.

Section query_facts.
Lemma string_app_assoc (s1 s2 s3 : string) :
  (s1 +:+ s2) +:+ s3 = s1 +:+ (s2 +:+ s3).
Proof.
  induction s1 as [|c s1 IH]; [done|].
  change (String c ((s1 +:+ s2) +:+ s3) = String c (s1 +:+ (s2 +:+ s3))).
  by rewrite IH.
Qed.

(** The query for a table with a float column, as text. *)
Example GetMd5HashesSql_example :
  Fingerprint.GetMd5HashesSql (λ _, "(1=0)") "db" "t1" "id" Sample.columns_if
    [1%N; 2%N; 3%N] =
  ("SELECT `id`, MD5(CONCAT(MD5(COALESCE(`id`, 'NULL')),MD5(COALESCE((if (`price` = '-0', 0, `price`)), 'NULL')))) AS row_fingerprint FROM `db`.`t1` WHERE `id` IN (?,?,?) ORDER BY `id`",
   [1%N; 2%N; 3%N], None).
Proof. by vm_compute. Qed.
End query_facts.

Section query_text.
(** The text of the statement for every key list: [filter_] is what the
    builder prints for [sq.Eq{quotedPK: pks}]. *)
Lemma GetMd5HashesSql_text (in_empty : string → string)
    (schema_ table pkColumn : string) (columns : list schema.TableColumn)
    (pks : list uint64) :
  Fingerprint.GetMd5HashesSql in_empty schema_ table pkColumn columns pks =
    ("SELECT " +:+ quoteField pkColumn +:+ ", MD5(CONCAT("
       +:+ String.concat "," (Fingerprint.hashStr <$> columns)
       +:+ ")) AS row_fingerprint"
       +:+ " FROM " +:+ QuotedTableNameFromString schema_ table
       +:+ " WHERE " +:+ sq.Eq_ToSql in_empty (quoteField pkColumn, pks)
       +:+ " ORDER BY " +:+ quoteField pkColumn,
     pks, None).
Proof.
  unfold Fingerprint.GetMd5HashesSql, Fingerprint.rowMd5Selector, sq.ToSql,
    sq.OrderBy, sq.Where, sq.From, sq.Select.
  cbn [sq.Columns sq.FromPart sq.WhereParts sq.OrderBys app fmap list_fmap
       String.concat mbind list_bind snd].
  rewrite app_nil_r, !string_app_assoc. done.
Qed.
End query_text.

(** C5, as stated, fails for the empty key list: the filter the builder
    prints is then no IN list at all.  With [(1=0)] for the empty slice
    the statement for the table [db.t1] is the one below, and whatever
    stands for the placeholders it is not the statement with
    [`id` IN (...)] as its filter. *)
Lemma GetMd5HashesSql_empty_key_list :
  Fingerprint.GetMd5HashesSql Sample.in_empty "db" "t1" "id" Sample.columns_if [] =
    ("SELECT `id`, MD5(CONCAT(MD5(COALESCE(`id`, 'NULL')),MD5(COALESCE((if (`price` = '-0', 0, `price`)), 'NULL')))) AS row_fingerprint FROM `db`.`t1` WHERE (1=0) ORDER BY `id`",
     [], None) ∧
  ∀ placeholders : string,
    (Fingerprint.GetMd5HashesSql Sample.in_empty "db" "t1" "id" Sample.columns_if []).1.1 ≠
      "SELECT `id`, MD5(CONCAT(MD5(COALESCE(`id`, 'NULL')),MD5(COALESCE((if (`price` = '-0', 0, `price`)), 'NULL')))) AS row_fingerprint FROM `db`.`t1` WHERE `id` IN ("
        +:+ placeholders +:+ ") ORDER BY `id`".
Proof.
  split; [by vm_compute|].
  intros placeholders H. vm_compute in H. discriminate H.
Qed.

(** C5, amended.  For a key list that is not empty, the statement
    [GetMd5HashesSql] builds is, in this order: SELECT of the quoted key
    column and of MD5(CONCAT(...)) AS row_fingerprint, where the arguments
    of CONCAT are one MD5(COALESCE(c, 'NULL')) per column, in column
    order, separated by commas; FROM the quoted table; WHERE the quoted
    key column IN one placeholder per key; ORDER BY the quoted key column.
    The arguments are the keys given and no error is returned.  The
    reference [c] to a column is its quoted name, except for a column of
    type float, where it is (if (c = '-0', 0, c)). *)
Theorem GetMd5HashesSql_shape (in_empty : string → string)
    (schema_ table pkColumn : string) (columns : list schema.TableColumn)
    (pks : list uint64) :
  pks ≠ [] →
  Fingerprint.GetMd5HashesSql in_empty schema_ table pkColumn columns pks =
    ("SELECT " +:+ quoteField pkColumn +:+ ", MD5(CONCAT("
       +:+ String.concat ","
             ((λ c, "MD5(COALESCE("
                      +:+ (if decide (schema.col_Type c = schema.TYPE_FLOAT)
                           then "(if (" +:+ quoteField (schema.col_Name c)
                                +:+ " = '-0', 0, "
                                +:+ quoteField (schema.col_Name c) +:+ "))"
                           else quoteField (schema.col_Name c))
                      +:+ ", 'NULL'))") <$> columns)
       +:+ ")) AS row_fingerprint"
       +:+ " FROM " +:+ QuotedTableNameFromString schema_ table
       +:+ " WHERE " +:+ (quoteField pkColumn +:+ " IN ("
                            +:+ String.concat "," (replicate (length pks) "?") +:+ ")")
       +:+ " ORDER BY " +:+ quoteField pkColumn,
     pks, None).
Proof.
  intros Hpks. rewrite GetMd5HashesSql_text.
  unfold sq.Eq_ToSql, sq.Placeholders. by destruct pks.
Qed.

Lemma GetMd5HashesSql_shape_witness :
  [1%N; 2%N; 3%N] ≠ [] ∧
  Fingerprint.GetMd5HashesSql Sample.in_empty "db" "t1" "id" Sample.columns_if
    [1%N; 2%N; 3%N] =
  ("SELECT `id`, MD5(CONCAT(MD5(COALESCE(`id`, 'NULL')),MD5(COALESCE((if (`price` = '-0', 0, `price`)), 'NULL')))) AS row_fingerprint FROM `db`.`t1` WHERE `id` IN (?,?,?) ORDER BY `id`",
   [1%N; 2%N; 3%N], None).
Proof.
  split; [done|].
  exact (GetMd5HashesSql_shape Sample.in_empty "db" "t1" "id" Sample.columns_if
           [1%N; 2%N; 3%N] ltac:(done)).
Defined.

Section sequencing_facts.
Import Controller.

(** What [StartInBackground] does check: each of its three guards
    returns its error, starts no goroutine and leaves the state alone. *)
Lemma StartInBackground_guards now v σ :
  (logger v = None →
   StartInBackground now (v, σ)
     = Ok (Some "Initialize() must be called before this", false, (v, σ))) ∧
  (logger v ≠ None → beforeCutoverVerifyDone v = false →
   StartInBackground now (v, σ)
     = Ok (Some "VerifyBeforeCutover() must be called before this", false, (v, σ))) ∧
  (logger v ≠ None → beforeCutoverVerifyDone v = true →
   verifyDuringCutoverStarted v = true →
   StartInBackground now (v, σ)
     = Ok (Some "verification during cutover has already been started", false, (v, σ))).
Proof.
  unfold StartInBackground. split_and!.
  - intros ->. done.
  - intros Hlog ->. by rewrite decide_False.
  - intros Hlog -> ->. by rewrite decide_False.
Qed.
End sequencing_facts.

(** C1. The happy path, evaluated: a verifier with every collaborator set
    is initialized; the scan before cutover finds source and target equal
    and returns no error; the store is empty at freeze; and
    [VerifyDuringCutover] returns [{DataCorrect: false, Message: ""}] with
    a nil error, where the specification has [{true, ""}].  With no batch
    no worker has a result, every slot of [results] is nil, and the loop
    over the slots leaves [result] at its zero value. *)
Theorem VerifyDuringCutover_happy_path_not_correct :
  ∃ st1 st2 st3 r,
    Controller.Initialize (Sample.verifier_configured, Store.empty_mem) = (None, st1) ∧
    Controller.VerifyBeforeCutover Sample.in_empty Sample.same_rows Sample.one_page
      Comparator.compareHashes Sample.first_worker st1 = Ok (None, st2) ∧
    reverifyStore st2.1 = Some r ∧ Store.contents st2.2 r = ∅ ∧
    Controller.VerifyDuringCutover Sample.in_empty Sample.same_rows
      Comparator.compareHashes Store.canonical_visits Sample.first_worker st2
      = Ok (({| DataCorrect := false; Message := "" |}, None), st3).
Proof.
  eexists _, _, _, _.
  split_and!; [by vm_compute..|by vm_compute].
Qed.

(** C7. The phase methods other than [StartInBackground], evaluated out of
    order, whatever the collaborators do.  On a verifier on which
    [Initialize] was never called, [VerifyDuringCutover] panics closing
    the nil channel and [VerifyBeforeCutover] panics calling the nil
    logger; on a verifier that was initialized but on which
    [VerifyBeforeCutover] was never called, [VerifyDuringCutover] panics
    waiting on the nil wait group.  None of them returns an error. *)
Theorem phase_methods_unguarded
    (in_empty : string → string)
    (db_query : nat → string → list uint64 → nat → list (uint64 * list byte) * option error)
    (cursor_pages : schema.Table → list (list (uint64 * option error)) * option error)
    (compareHashes_run : gmap uint64 (list byte) → gmap uint64 (list byte) → list uint64)
    (freeze_visits : gmap TableIdentifier (gset uint64) → list (TableIdentifier * list uint64))
    (worker_of : nat → nat) :
  Controller.VerifyDuringCutover in_empty db_query compareHashes_run freeze_visits
    worker_of (Sample.verifier_zero, Store.empty_mem)
    = Panic "close of nil channel" ∧
  Controller.VerifyBeforeCutover in_empty db_query cursor_pages compareHashes_run
    worker_of (Sample.verifier_zero, Store.empty_mem)
    = nil_deref ∧
  (Controller.Initialize (Sample.verifier_configured, Store.empty_mem)).1 = None ∧
  Controller.VerifyDuringCutover in_empty db_query compareHashes_run freeze_visits
    worker_of (Controller.Initialize (Sample.verifier_configured, Store.empty_mem)).2
    = nil_deref.
Proof. split_and!; reflexivity. Qed.

Lemma compareHashes_symmetric_witness :
  Comparator.compareHashes_returns Sample.hashes_source Sample.hashes_target
    (Comparator.compareHashes Sample.hashes_source Sample.hashes_target) ∧
  Comparator.compareHashes_returns Sample.hashes_target Sample.hashes_source
    (Comparator.compareHashes Sample.hashes_target Sample.hashes_source) ∧
  (1%N ∈ Comparator.compareHashes Sample.hashes_source Sample.hashes_target
   ↔ 1%N ∈ Comparator.compareHashes Sample.hashes_target Sample.hashes_source).
Proof.
  split; [apply compareHashes_runs|]. split; [apply compareHashes_runs|].
  apply (compareHashes_symmetric Sample.hashes_source Sample.hashes_target);
    apply compareHashes_runs.
Defined.

(** * Further properties *)

Section store_extra_facts.
Import Store.

Implicit Types (σ : Mem) (r : ReverifyStore).

(** What one [Add] does to [RowCount]: nothing for a pair the store
    holds, one more, wrapping at 2^64, for a new pair. *)
Lemma Add_count e σ r ps :
  holds σ r ps →
  ∃ σ' r', Add e σ r = Ok (σ', r') ∧
    RowCount r' =
      if decide ((NewTableIdentifierFromSchemaTable (EntryTable e), Pk e) ∈ ps)
      then RowCount r else ((RowCount r + 1) mod 2 ^ 64)%N.
Proof.
  intros (l & Hl & Hlog & Hps). unfold Add. rewrite Hl.
  set (tid := NewTableIdentifierFromSchemaTable (EntryTable e)).
  set (m1 := match deref σ l !! tid with
             | Some _ => deref σ l
             | None => <[tid := ∅]> (deref σ l)
             end).
  assert (Hm1 : default ∅ (m1 !! tid) = default ∅ (deref σ l !! tid)).
  { unfold m1. destruct (deref σ l !! tid) eqn:Htid; [by rewrite Htid|].
    by rewrite lookup_insert_eq. }
  rewrite Hm1. destruct (decide (Pk e ∈ default ∅ (deref σ l !! tid))) as [Hin|Hout].
  - eexists _, _. split; [done|]. rewrite decide_True; [done|]. by apply Hps.
  - cbn [EmitLogPerRowCount]. apply N.eqb_neq in Hlog as ->.
    eexists _, _. split; [done|]. rewrite decide_False; [done|]. by rewrite <- Hps.
Qed.

Lemma distinct_snoc ps p :
  distinct (ps ++ [p]) = if decide (p ∈ ps) then distinct ps else S (distinct ps).
Proof.
  unfold distinct. rewrite list_to_set_app_L. simpl. rewrite (right_id_L ∅ (∪)).
  case_decide as Hp.
  - f_equal. rewrite (comm_L (∪)). apply subseteq_union_1_L, singleton_subseteq_l.
    by apply elem_of_list_to_set.
  - rewrite size_union, size_singleton; [lia|].
    apply disjoint_singleton_r. by rewrite elem_of_list_to_set.
Qed.

Lemma AddAll_count entries : ∀ σ r ps,
  holds σ r ps →
  RowCount r = (N.of_nat (distinct ps) mod 2 ^ 64)%N →
  ∃ σ' r', AddAll entries σ r = Ok (σ', r') ∧
    RowCount r' = (N.of_nat (distinct (ps ++ added_pairs entries)) mod 2 ^ 64)%N.
Proof.
  induction entries as [|e entries IH]; intros σ r ps Hps Hcount; cbn [AddAll].
  - exists σ, r. by rewrite app_nil_r.
  - destruct (Add_holds e σ r ps Hps) as (σ1 & r1 & Hadd & H1).
    destruct (Add_count e σ r ps Hps) as (σ1' & r1' & Hadd' & Hrc).
    rewrite Hadd in Hadd'. injection Hadd' as <- <-. rewrite Hadd.
    cbn [mbind outcome_bind].
    destruct (IH σ1 r1 _ H1) as (σ' & r' & -> & Hfinal).
    + rewrite Hrc, distinct_snoc. case_decide; [done|].
      rewrite Hcount, N.Div0.add_mod_idemp_l. f_equal. lia.
    + exists σ', r'. split; [done|]. rewrite Hfinal. cbn [added_pairs fmap list_fmap].
      by rewrite <- app_assoc.
Qed.
End store_extra_facts.

(** X1. [Add] is idempotent: adding again an entry that has just been
    added returns and changes neither the map, nor [RowCount], nor the
    log. *)
Theorem Add_twice (e : ReverifyEntry) (σ σ1 : Store.Mem) (r r1 : Store.ReverifyStore) :
  Store.Add e σ r = Ok (σ1, r1) → Store.Add e σ1 r1 = Ok (σ1, r1).
Proof.
  unfold Store.Add at 1. destruct (Store.MapStore r) as [l|] eqn:Hl; [|done].
  set (tid := NewTableIdentifierFromSchemaTable (EntryTable e)).
  assert (Hagain : ∀ (ms : gmap positive _) log m r',
             Store.MapStore r' = Some l → Pk e ∈ default ∅ (m !! tid) →
             is_Some (m !! tid) →
             Store.Add e {| Store.maps := <[l := m]> ms; Store.checkpoints := log |} r'
             = Ok ({| Store.maps := <[l := m]> ms; Store.checkpoints := log |}, r')).
  { intros ms log m r' Hl' Hin [s Hs]. unfold Store.Add. rewrite Hl'.
    fold tid. rewrite deref_insert, Hs.
    rewrite decide_True by done. unfold Store.store_map. simpl.
    by rewrite insert_insert_eq. }
  destruct (Store.deref σ l !! tid) as [s|] eqn:Hs.
  - rewrite Hs. simpl. destruct (decide (Pk e ∈ s)) as [Hin|Hout].
    + intros [= <- <-]. apply Hagain; [done|by rewrite Hs|by eexists].
    + destruct (_ =? _)%N; [done|]. intros [= <- <-].
      apply Hagain; [done| |]; rewrite lookup_insert_eq; [set_solver|by eexists].
  - rewrite lookup_insert_eq. simpl. rewrite decide_False by set_solver.
    destruct (_ =? _)%N; [done|]. intros [= <- <-].
    apply Hagain; [done| |]; rewrite lookup_insert_eq; [set_solver|by eexists].
Qed.

Lemma Add_twice_witness :
  Store.Add (Sample.entry 42) (Store.NewReverifyStore Store.empty_mem).1
    (Store.NewReverifyStore Store.empty_mem).2 = Ok (Sample.mem_42, Sample.store_42) ∧
  Store.Add (Sample.entry 42) Sample.mem_42 Sample.store_42
    = Ok (Sample.mem_42, Sample.store_42).
Proof.
  split; [by vm_compute|].
  apply (Add_twice _ (Store.NewReverifyStore Store.empty_mem).1 _
           (Store.NewReverifyStore Store.empty_mem).2).
  by vm_compute.
Defined.

(** X2. [RowCount] counts the distinct pairs: after any sequence of [Add]
    calls on a new store, which all return, [RowCount] is the number of
    distinct [(table, pk)] pairs added, modulo 2^64. *)
Theorem RowCount_counts_distinct (σ0 : Store.Mem) (entries : list ReverifyEntry) :
  ∃ σ r,
    Store.AddAll entries (Store.NewReverifyStore σ0).1 (Store.NewReverifyStore σ0).2
      = Ok (σ, r) ∧
    Store.RowCount r
      = (N.of_nat (Store.distinct (Store.added_pairs entries)) mod 2 ^ 64)%N.
Proof.
  destruct (AddAll_count entries _ _ [] (NewReverifyStore_holds σ0) eq_refl)
    as (σ & r & Hrun & Hcount).
  by exists σ, r.
Qed.

Section freeze_extra_facts.
Import Store.

Implicit Types (σ : Mem) (r : ReverifyStore).





(** The loop touches the map of the store only. *)
Lemma table_loop_frame bs l visits : ∀ σ r σ' r',
  table_loop bs l σ r visits = Ok (σ', r') →
  checkpoints σ' = checkpoints σ ∧ ∀ l', l' ≠ l → deref σ' l' = deref σ l'.
Proof.
  induction visits as [|[t pks] visits IH]; intros σ r σ' r'; cbn [table_loop].
  - by intros [= <- <-].
  - unfold table_step. destruct (makeslice bs) as [pkBatch0| |]; [|done..].
    cbn [mbind outcome_bind].
    destruct (foldl _ _ _) as [sorted pkBatch]. cbn [mbind outcome_bind].
    intros (Hlog & Hframe)%IH. split; [done|].
    intros l' Hne. rewrite Hframe by done. unfold deref, store_map. simpl.
    by rewrite lookup_insert_ne.
Qed.
End freeze_extra_facts.



(** X4. With batch size 0 the test [len(pkBatch) >= batchsize] holds after
    every append: [FreezeAndBatchByTable] on a live store returns, and
    every batch has exactly one key. *)
Theorem freeze_batchsize_zero (visits : list (TableIdentifier * list uint64))
    (σ : Store.Mem) (r : Store.ReverifyStore) :
  is_Some (Store.MapStore r) →
  ∃ batches σ',
    Store.FreezeAndBatchByTable visits 0 σ r = Ok (batches, σ') ∧
    Forall (λ b, length (Pks b) = 1%nat) batches.
Proof.
  intros [l Hl].
  destruct (FreezeAndBatchByTable_ok visits 0 σ r l Hl)
    as (batches & σ' & -> & _ & Hb & _); [by vm_compute|].
  exists batches, σ'. split; [done|].
  eapply Forall_impl; [exact Hb|]. intros b (t & _ & Hlen). simpl in Hlen. lia.
Qed.

Lemma freeze_batchsize_zero_witness :
  is_Some (Store.MapStore Sample.store_123) ∧
  ∃ batches σ',
    Store.FreezeAndBatchByTable [(Sample.tid1, [1%N; 2%N; 3%N])] 0
      Sample.mem_123 Sample.store_123 = Ok (batches, σ') ∧
    Forall (λ b, length (Pks b) = 1%nat) batches.
Proof.
  split; [by eexists|].
  apply (freeze_batchsize_zero [(Sample.tid1, [1%N; 2%N; 3%N])]
           Sample.mem_123 Sample.store_123). by eexists.
Defined.

(** X5. With a negative batch size, [FreezeAndBatchByTable] on a live store
    panics in [make] as soon as the map holds a table, in whatever order
    the runtime ranges; on an empty map it returns no batch and leaves the
    memory alone. *)
Theorem freeze_negative_batchsize (batchsize : Z) (σ : Store.Mem)
    (r : Store.ReverifyStore) (res : outcome (list ReverifyBatch * Store.Mem)) :
  (batchsize < 0)%Z → is_Some (Store.MapStore r) →
  Store.FreezeAndBatchByTable_returns batchsize σ r res →
  res = if decide (Store.contents σ r = ∅) then Ok ([], σ)
        else Panic "makeslice: cap out of range".
Proof.
  intros Hbs [l Hl] Hret. case_decide as Hempty.
  - apply (FreezeAndBatchByTable_drained batchsize σ r l); [done| |done].
    unfold Store.contents in Hempty. by rewrite Hl in Hempty.
  - destruct Hret as (visits & (entries & Hperm & Hall) & <-).
    unfold Store.FreezeAndBatchByTable. rewrite Hl.
    destruct visits as [|v visits].
    + apply Forall2_nil_inv_r in Hall as ->. unfold ranges_map in Hperm.
      symmetry in Hperm. apply Permutation_nil_r, map_to_list_empty_iff in Hperm.
      done.
    + cbn [Store.table_loop]. rewrite table_step_panics by lia. done.
Qed.

Lemma freeze_negative_batchsize_witness :
  (-1 < 0)%Z ∧ is_Some (Store.MapStore Sample.store_42) ∧
  Store.FreezeAndBatchByTable_returns (-1) Sample.mem_42 Sample.store_42
    (Store.FreezeAndBatchByTable
       (Store.canonical_visits (Store.contents Sample.mem_42 Sample.store_42))
       (-1) Sample.mem_42 Sample.store_42) ∧
  Store.FreezeAndBatchByTable
    (Store.canonical_visits (Store.contents Sample.mem_42 Sample.store_42))
    (-1) Sample.mem_42 Sample.store_42
  = if decide (Store.contents Sample.mem_42 Sample.store_42 = ∅)
    then Ok ([], Sample.mem_42) else Panic "makeslice: cap out of range".
Proof.
  assert (Store.FreezeAndBatchByTable_returns (-1) Sample.mem_42 Sample.store_42
            (Store.FreezeAndBatchByTable
               (Store.canonical_visits (Store.contents Sample.mem_42 Sample.store_42))
               (-1) Sample.mem_42 Sample.store_42)) as Hret.
  { eexists. split; [apply ranges_store_canonical|done]. }
  split; [lia|]. split; [by eexists|]. split; [exact Hret|].
  apply (freeze_negative_batchsize (-1) Sample.mem_42 Sample.store_42);
    [lia|by eexists|exact Hret].
Defined.

(** X6. A call of [FreezeAndBatchByTable] that returns leaves the map of
    the store empty, every table deleted, and touches nothing else: the log
    and the maps of other stores are as before. *)
Theorem freeze_releases_map (batchsize : Z) (σ σ' : Store.Mem)
    (r : Store.ReverifyStore) (batches : list ReverifyBatch) :
  Store.FreezeAndBatchByTable_returns batchsize σ r (Ok (batches, σ')) →
  Store.contents σ' r = ∅ ∧
  Store.checkpoints σ' = Store.checkpoints σ ∧
  ∀ l', Store.MapStore r ≠ Some l' → Store.deref σ' l' = Store.deref σ l'.
Proof.
  intros Hret. destruct (Store.MapStore r) as [l|] eqn:Hl.
  - split.
    + unfold Store.contents. rewrite Hl.
      by apply (FreezeAndBatchByTable_drains batchsize σ r l batches).
    + destruct Hret as (visits & _ & Hrun).
      unfold Store.FreezeAndBatchByTable in Hrun. rewrite Hl in Hrun.
      destruct (Store.table_loop _ _ _ _ _) as [[σ1 r1]| |] eqn:Hloop; [|done..].
      simpl in Hrun. injection Hrun as _ <-.
      apply table_loop_frame in Hloop as [Hlog Hframe]. split; [done|].
      intros l' Hne. apply Hframe. congruence.
  - destruct Hret as (visits & _ & Hrun).
    unfold Store.FreezeAndBatchByTable in Hrun. rewrite Hl in Hrun.
    injection Hrun as _ <-. unfold Store.contents. by rewrite Hl.
Qed.

Lemma freeze_releases_map_witness :
  Store.FreezeAndBatchByTable_returns 1 Sample.mem_42 Sample.store_42
    (Ok ([Sample.batch_42], Sample.mem_drained)) ∧
  Store.contents Sample.mem_drained Sample.store_42 = ∅ ∧
  Store.checkpoints Sample.mem_drained = Store.checkpoints Sample.mem_42 ∧
  ∀ l', Store.MapStore Sample.store_42 ≠ Some l' →
        Store.deref Sample.mem_drained l' = Store.deref Sample.mem_42 l'.
Proof.
  assert (Store.FreezeAndBatchByTable_returns 1 Sample.mem_42 Sample.store_42
            (Ok ([Sample.batch_42], Sample.mem_drained))) as Hret.
  { exists (Store.canonical_visits (Store.contents Sample.mem_42 Sample.store_42)).
    split; [apply ranges_store_canonical|by vm_compute]. }
  split; [exact Hret|].
  exact (freeze_releases_map 1 Sample.mem_42 Sample.mem_drained Sample.store_42
           [Sample.batch_42] Hret).
Defined.

(** X7. A map compared with itself has no mismatch: [compareHashes(m, m)]
    returns an empty slice, in whatever order the runtime ranges. *)
Theorem compareHashes_identity (m : gmap uint64 (list byte)) (out : list uint64) :
  Comparator.compareHashes_returns m m out → out = [].
Proof.
  intros (rt & rs & Ht & Hs & Hout). unfold ranges_set in Hout.
  assert (Comparator.mismatchSet_on m m rt rs = ∅) as Hnone.
  { apply elem_of_equiv_empty_L. intros x Hx%mismatchSet_on_elem; [|done..].
    destruct Hx as [[[a Ha] Hn]|[[Hn [b Hb]]|(a & b & Ha & Hb & Hab)]]; congruence. }
  rewrite Hnone, elements_empty in Hout. by apply Permutation_nil_r.
Qed.

Lemma compareHashes_identity_witness :
  Comparator.compareHashes_returns Sample.hashes_source Sample.hashes_source
    (Comparator.compareHashes Sample.hashes_source Sample.hashes_source) ∧
  Comparator.compareHashes Sample.hashes_source Sample.hashes_source = [].
Proof.
  split; [apply compareHashes_runs|].
  apply (compareHashes_identity Sample.hashes_source). apply compareHashes_runs.
Defined.

(** X8. When one of the two maps is empty, no row came back from that
    side, [compareHashes] returns every key of the other map, each once:
    a row missing on one side is a mismatch whatever its fingerprint, the
    empty one included. *)
Theorem compareHashes_one_side_empty (m : gmap uint64 (list byte)) (out : list uint64) :
  Comparator.compareHashes_returns ∅ m out ∨ Comparator.compareHashes_returns m ∅ out →
  NoDup out ∧ ∀ pk, pk ∈ out ↔ is_Some (m !! pk).
Proof.
  intros [(rt & rs & Ht & Hs & Hout)|(rt & rs & Ht & Hs & Hout)];
    unfold ranges_set in Hout; (split; [rewrite Hout; apply NoDup_elements|]);
    intros pk; rewrite Hout, elem_of_elements, mismatchSet_on_elem by done;
    unfold Comparator.mismatched; rewrite lookup_empty; split.
  - intros [[[a Ha] _]|[[_ Hb]|(a & b & Ha & _)]]; done.
  - intros Hb. right; left. done.
  - intros [[Ha _]|[[_ [b Hb]]|(a & b & _ & Hb & _)]]; done.
  - intros Ha. left. done.
Qed.

Lemma compareHashes_one_side_empty_witness :
  NoDup (Comparator.compareHashes ∅ Sample.hashes_target) ∧
  ∀ pk, pk ∈ Comparator.compareHashes ∅ Sample.hashes_target
        ↔ is_Some (Sample.hashes_target !! pk).
Proof.
  apply (compareHashes_one_side_empty Sample.hashes_target). left.
  apply compareHashes_runs.
Defined.

(** X9. A table is ignored exactly when its bare name is in [IgnoredTables];
    the schema name plays no part. *)
Theorem tableIsIgnored_by_name (ignoredTables : list string) (table : schema.Table) :
  Listener.tableIsIgnored ignoredTables table = true ↔ schema.Name table ∈ ignoredTables.
Proof.
  induction ignoredTables as [|ignored rest IH]; simpl.
  - split; [done|by intros ?%elem_of_nil].
  - rewrite elem_of_cons. destruct (String.eqb_spec (schema.Name table) ignored) as [->|Hne].
    + split; [by left|done].
    + rewrite IH. split; [by right|]. by intros [?|?].
Qed.

(** X10. While [verifyDuringCutoverStarted] is not set and the verifier is
    listening, a batch in which every event either is of an ignored table
    or gives its key is accepted: the listener returns nil; one entry has
    been sent, and received, for each event whose table is not ignored, in
    order; the store holds the pairs it held and the pairs of these
    entries, and nothing else of the verifier has changed.  The key of an
    event of an ignored table is never asked for, so its error does not
    fail the batch. *)
Theorem listener_accepts (st : IterativeVerifier * Store.Mem)
    (ps : list (TableIdentifier * uint64)) (evs : list DMLEvent) :
  verifyDuringCutoverStarted st.1 = false →
  Controller.listening st ps →
  Forall (λ e, Listener.tableIsIgnored (IgnoredTables st.1) (TableSchema e) = true
               ∨ (PK e).2 = None) evs →
  ∃ st',
    Controller.send_all (Listener.entries_of (IgnoredTables st.1) evs) st = Ok st' ∧
    Controller.on_binlog_events evs st = Ok (None, st') ∧
    Controller.only_store st.1 st'.1 ∧
    Controller.listening st'
      (ps ++ Store.added_pairs (Listener.entries_of (IgnoredTables st.1) evs)).
Proof.
  intros Hflag Hst Hevs.
  destruct (listen_prefix evs [] st ps Hevs Hst) as (st' & Hsend & Hrun & Hframe & Hst').
  exists st'. split_and!; [done| |done..].
  unfold Controller.on_binlog_events. rewrite Hflag.
  rewrite app_nil_r in Hrun. by rewrite Hrun.
Qed.

Lemma listener_accepts_witness :
  verifyDuringCutoverStarted Sample.state_listening.1 = false ∧
  Controller.listening Sample.state_listening [] ∧
  Forall (λ e, Listener.tableIsIgnored (IgnoredTables Sample.state_listening.1)
                 (TableSchema e) = true ∨ (PK e).2 = None)
    [Sample.ev_ok 7; Sample.ev_skipped; Sample.ev_ok 9] ∧
  ∃ st',
    Controller.send_all
      (Listener.entries_of (IgnoredTables Sample.state_listening.1)
         [Sample.ev_ok 7; Sample.ev_skipped; Sample.ev_ok 9])
      Sample.state_listening = Ok st' ∧
    Controller.on_binlog_events [Sample.ev_ok 7; Sample.ev_skipped; Sample.ev_ok 9]
      Sample.state_listening = Ok (None, st') ∧
    Controller.only_store Sample.state_listening.1 st'.1 ∧
    Controller.listening st'
      ([] ++ Store.added_pairs
               (Listener.entries_of (IgnoredTables Sample.state_listening.1)
                  [Sample.ev_ok 7; Sample.ev_skipped; Sample.ev_ok 9])).
Proof.
  assert (Controller.listening Sample.state_listening []) as Hst.
  { split_and!; [by vm_compute|by eexists|].
    eexists. split; [by vm_compute|].
    exists 1%positive. split_and!; [done..|]. intros t pk.
    change (Store.deref Sample.state_listening.2 1%positive)
      with (∅ : gmap TableIdentifier (gset N)).
    rewrite lookup_empty. simpl.
    split; [by intros ?%not_elem_of_empty|by intros ?%elem_of_nil]. }
  assert (Forall (λ e, Listener.tableIsIgnored (IgnoredTables Sample.state_listening.1)
                         (TableSchema e) = true ∨ (PK e).2 = None)
            [Sample.ev_ok 7; Sample.ev_skipped; Sample.ev_ok 9]) as Hevs.
  { repeat (constructor; [first [left; by vm_compute|right; reflexivity]|]).
    constructor. }
  split; [by vm_compute|]. split; [exact Hst|]. split; [exact Hevs|].
  apply (listener_accepts Sample.state_listening [] _ ltac:(by vm_compute) Hst Hevs).
Defined.

Section controller_extra_facts.
Import Controller.

Context (in_empty : string → string)
  (db_query : nat → string → list N → nat → list (N * list byte) * option error)
  (compareHashes_run : gmap N (list byte) → gmap N (list byte) → list N)
  (freeze_visits : gmap TableIdentifier (gset N) → list (TableIdentifier * list N))
  (worker_of : nat → nat).

(** A cutover verification that returns has set the flag, closed the
    channel and waited for the consumer, and changed nothing else of the
    verifier. *)
Lemma VerifyDuringCutover_state v σ res v' σ' :
  VerifyDuringCutover in_empty db_query compareHashes_run freeze_visits worker_of (v, σ)
    = Ok (res, (v', σ')) →
  v' = set_wg (Some 0%Z)
         (set_reverifyChan (Some chan_closed)
            (set_verifyDuringCutoverStarted true v)).
Proof.
  unfold VerifyDuringCutover. simpl.
  destruct (reverifyChan v) as [[]|]; [|done..]. simpl.
  destruct (wg v); [|done]. simpl.
  destruct (reverifyStore v); [|done]. simpl.
  destruct (CursorConfig v); [|done]. simpl.
  destruct (Store.FreezeAndBatchByTable _ _ _ _) as [[allBatches σ1]| |]; [|done..].
  simpl. destruct (log _); [|done..]. simpl.
  destruct (WorkerPool_Run _ _ _ _ _) as [[[] [results e]]| |]; [|done..]. simpl.
  destruct (collect _ _ _ _) as [[result err]| |]; [|done..]. simpl.
  by intros [= _ <- _].
Qed.
End controller_extra_facts.

(** X11. [SanityCheckParameters] returns nil exactly when the cursor
    config, the streamer, both database handles and the schema cache are
    set and [Concurrency] is positive. *)
Theorem SanityCheckParameters_nil_iff (v : IterativeVerifier) :
  Controller.SanityCheckParameters v = None ↔
  CursorConfig v ≠ None ∧ BinlogStreamer v ≠ None ∧ SourceDB v ≠ None ∧
  TargetDB v ≠ None ∧ (0 < Concurrency v)%Z ∧ TableSchemaCache v ≠ None.
Proof.
  unfold Controller.SanityCheckParameters.
  repeat case_decide; try destruct (Z.leb_spec (Concurrency v) 0);
    (split; [ try done; intros _; split_and!; first [done|lia]
            | intros (?&?&?&?&?&?); first [done|lia] ]).
Qed.

(** X12. [Initialize] returns what [SanityCheckParameters] returns and
    always sets the logger.  When the check fails nothing else changes: no
    store and no channel are made.  When it passes, the channel is open and
    the store is a new one, with a non-nil empty map, [RowCount] 0 and the
    log period 10000, and the maps already in memory are untouched. *)
Theorem Initialize_post (v : IterativeVerifier) (σ : Store.Mem) :
  (Controller.Initialize (v, σ)).1 = Controller.SanityCheckParameters v ∧
  logger (Controller.Initialize (v, σ)).2.1 = Some () ∧
  (Controller.SanityCheckParameters v ≠ None →
   (Controller.Initialize (v, σ)).2 = (set_logger (Some ()) v, σ)) ∧
  (Controller.SanityCheckParameters v = None →
   reverifyChan (Controller.Initialize (v, σ)).2.1 = Some chan_open ∧
   ∃ r, reverifyStore (Controller.Initialize (v, σ)).2.1 = Some r ∧
        Store.holds (Controller.Initialize (v, σ)).2.2 r [] ∧
        Store.RowCount r = 0%N ∧ Store.EmitLogPerRowCount r = 10000%N ∧
        ∀ l, l ∈ dom (Store.maps σ) →
             Store.deref (Controller.Initialize (v, σ)).2.2 l = Store.deref σ l).
Proof.
  unfold Controller.Initialize.
  change (Controller.SanityCheckParameters (set_logger (Some ()) v))
    with (Controller.SanityCheckParameters v).
  destruct (Controller.SanityCheckParameters v) as [e|]; simpl.
  - by split_and!.
  - split_and!; [done..|]. intros _. split; [done|].
    eexists. split; [done|]. split_and!; [apply NewReverifyStore_holds|done..|].
    intros l Hl. unfold Store.deref, Store.store_map. simpl.
    rewrite lookup_insert_ne; [done|]. intros <-. by apply is_fresh in Hl.
Qed.

(** X13. [StartInBackground] always returns.  It returns nil exactly when
    the logger is set, the verification before cutover is marked done and
    cutover has not started; the goroutine is started exactly then.  On an
    error the state is unchanged.  On nil the start time is recorded with a
    zero done time, a zero result and a nil error, the background wait
    group counts one goroutine, and the store, the channel and the cutover
    flag are as before. *)
Theorem StartInBackground_starts_iff (now : N) (v : IterativeVerifier) (σ : Store.Mem) :
  ∃ err started st',
    Controller.StartInBackground now (v, σ) = Ok (err, started, st') ∧
    (err = None ↔ logger v ≠ None ∧ beforeCutoverVerifyDone v = true ∧
                  verifyDuringCutoverStarted v = false) ∧
    (started = true ↔ err = None) ∧
    (err ≠ None → st' = (v, σ)) ∧
    (err = None →
     st'.2 = σ ∧
     verificationResultAndStatus st'.1 =
       {| StatusResult := {| DataCorrect := false; Message := "" |};
          StartTime := now; DoneTime := 0 |} ∧
     verificationErr st'.1 = None ∧
     backgroundVerificationWg st'.1 = Some 1%Z ∧
     verifyDuringCutoverStarted st'.1 = false ∧
     reverifyChan st'.1 = reverifyChan v ∧
     reverifyStore st'.1 = reverifyStore v).
Proof.
  unfold Controller.StartInBackground. case_decide as Hlog.
  { eexists _, _, _. split; [done|]. repeat split; try done. by intros [? _]. }
  destruct (beforeCutoverVerifyDone v) eqn:Hdone; simpl.
  2: { eexists _, _, _. split; [done|]. repeat split; try done.
       by intros (_ & ? & _). }
  destruct (verifyDuringCutoverStarted v) eqn:Hstarted.
  { eexists _, _, _. split; [done|]. repeat split; try done.
    by intros (_ & _ & ?). }
  eexists _, _, _. split; [done|]. repeat split; done.
Qed.

(** X14. The goroutine [StartInBackground] starts calls [Done] twice on a
    wait group that counts one: whenever the cutover verification in it
    returns, the goroutine panics with a negative wait group counter. *)
Theorem background_goroutine_panics
    (in_empty : string → string)
    (db_query : nat → string → list uint64 → nat → list (uint64 * list byte) * option error)
    (compareHashes_run : gmap uint64 (list byte) → gmap uint64 (list byte) → list uint64)
    (freeze_visits : gmap TableIdentifier (gset uint64) → list (TableIdentifier * list uint64))
    (worker_of : nat → nat)
    (start finish : N) (st st1 : IterativeVerifier * Store.Mem)
    (res : VerificationResult * option error * (IterativeVerifier * Store.Mem)) :
  Controller.StartInBackground start st = Ok (None, true, st1) →
  Controller.VerifyDuringCutover in_empty db_query compareHashes_run freeze_visits
    worker_of st1 = Ok res →
  Controller.background in_empty db_query compareHashes_run freeze_visits worker_of
    finish st1 = Panic "sync: negative WaitGroup counter".
Proof.
  destruct st as [v σ]. intros Hstart Hrun.
  assert (backgroundVerificationWg st1.1 = Some 1%Z) as Hwg.
  { unfold Controller.StartInBackground in Hstart.
    repeat case_match; by simplify_eq/=. }
  destruct st1 as [v1 σ1]. destruct res as [[result err] [v' σ']].
  pose proof (VerifyDuringCutover_state _ _ _ _ _ _ _ _ _ _ Hrun) as ->.
  unfold Controller.background. rewrite Hrun. simpl.
  unfold Controller.background_Done. simpl. simpl in Hwg. by rewrite Hwg.
Qed.

Lemma background_goroutine_panics_witness :
  Controller.StartInBackground 5 Sample.state_ready = Ok (None, true, Sample.state_started) ∧
  Controller.background Sample.in_empty Sample.same_rows Comparator.compareHashes
    Store.canonical_visits Sample.first_worker 9 Sample.state_started
  = Panic "sync: negative WaitGroup counter".
Proof.
  split; [by vm_compute|].
  eapply (background_goroutine_panics Sample.in_empty Sample.same_rows
            Comparator.compareHashes Store.canonical_visits Sample.first_worker
            5 9 Sample.state_ready Sample.state_started); by vm_compute.
Defined.

(** X15. [VerifyDuringCutover] runs once.  After a call that returned, the
    cutover flag is set and the channel is closed, so whatever the
    collaborators do: a second call panics closing the closed channel, the
    listener refuses every event batch, and [StartInBackground] returns an
    error without starting a goroutine. *)
Theorem VerifyDuringCutover_once
    (in_empty : string → string)
    (db_query : nat → string → list uint64 → nat → list (uint64 * list byte) * option error)
    (compareHashes_run : gmap uint64 (list byte) → gmap uint64 (list byte) → list uint64)
    (freeze_visits : gmap TableIdentifier (gset uint64) → list (TableIdentifier * list uint64))
    (worker_of : nat → nat)
    (st st' : IterativeVerifier * Store.Mem) (res : VerificationResult * option error) :
  Controller.VerifyDuringCutover in_empty db_query compareHashes_run freeze_visits
    worker_of st = Ok (res, st') →
  (∀ in_empty' db_query' compareHashes_run' freeze_visits' worker_of' σ,
     Controller.VerifyDuringCutover in_empty' db_query' compareHashes_run' freeze_visits'
       worker_of' (st'.1, σ) = Panic "close of closed channel") ∧
  (∀ evs, Listener.binlogEventListener st'.1 evs
          = ([], Some "cutover has started but received binlog event!")) ∧
  (∀ now σ, ∃ e, Controller.StartInBackground now (st'.1, σ)
                 = Ok (Some e, false, (st'.1, σ))).
Proof.
  destruct st as [v σ0], st' as [v' σ']. intros ->%VerifyDuringCutover_state.
  split_and!.
  - done.
  - done.
  - intros now σ. unfold Controller.StartInBackground. simpl.
    case_decide; [by eexists|]. destruct (beforeCutoverVerifyDone v); by eexists.
Qed.

Lemma VerifyDuringCutover_once_witness :
  Controller.VerifyDuringCutover Sample.in_empty Sample.same_rows Comparator.compareHashes
    Store.canonical_visits Sample.first_worker Sample.state_ready
  = Ok (({| DataCorrect := false; Message := "" |}, None), Sample.state_finished) ∧
  Controller.VerifyDuringCutover Sample.in_empty Sample.same_rows Comparator.compareHashes
    Store.canonical_visits Sample.first_worker (Sample.state_finished.1, Store.empty_mem)
  = Panic "close of closed channel".
Proof.
  split; [by vm_compute|].
  eapply (VerifyDuringCutover_once Sample.in_empty Sample.same_rows
            Comparator.compareHashes Store.canonical_visits Sample.first_worker
            Sample.state_ready Sample.state_finished). by vm_compute.
Defined.

Section collect_facts.
Import Controller.

(** The loop passes over a run of quiet slots, whatever follows. *)
Lemma collect_quiet_prefix results s1 : ∀ result err,
  Forall (quiet results) s1 →
  ∃ result' err', ∀ s2,
    collect results (s1 ++ s2) result err = collect results s2 result' err'.
Proof.
  induction s1 as [|i s1 IH]; intros result err Hquiet.
  - by exists result, err.
  - apply Forall_cons in Hquiet as [[Hi|(rae & Hi & Hrae)] Hquiet].
    + destruct (IH result err Hquiet) as (r' & e' & Hrest).
      exists r', e'. intros s2. cbn [app collect]. by rewrite Hi.
    + destruct (IH (Result rae) (Error rae) Hquiet) as (r' & e' & Hrest).
      exists r', e'. intros s2. cbn [app collect]. by rewrite Hi, Hrae.
Qed.
End collect_facts.

(** X16. The loop over the result slots at the end of [VerifyDuringCutover]
    returns the result and error of the first slot, in slot order, that
    holds an errored or failed result: the slots before it, nil or not,
    do not count. *)
Theorem collect_first_failure (results : list (option verificationResultAndError))
    (n k : nat) (bad : verificationResultAndError)
    (result : VerificationResult) (err : option error) :
  (k < n)%nat →
  results !! k = Some (Some bad) → ErroredOrFailed bad = true →
  (∀ i, (i < k)%nat → Controller.quiet results i) →
  Controller.collect results (seq 0 n) result err = Ok (Result bad, Error bad).
Proof.
  intros Hk Hbad Hfailed Hquiet.
  replace n with (k + S (n - S k))%nat by lia. rewrite seq_app. cbn [seq plus].
  destruct (collect_quiet_prefix results (seq 0 k) result err) as (r' & e' & ->).
  { apply Forall_forall. intros i Hi%elem_of_seq. apply Hquiet. lia. }
  cbn [Controller.collect]. by rewrite Hbad, Hfailed.
Qed.

Lemma collect_first_failure_witness :
  Controller.collect
    [None; Some Controller.matched;
     Some {| Result := {| DataCorrect := false; Message := "pks: 7" |}; Error := None |};
     Some {| Result := {| DataCorrect := false; Message := "" |}; Error := Some "gone" |}]
    (seq 0 4) {| DataCorrect := false; Message := "" |} None
  = Ok ({| DataCorrect := false; Message := "pks: 7" |}, None).
Proof.
  apply (collect_first_failure _ 4 2
           {| Result := {| DataCorrect := false; Message := "pks: 7" |}; Error := None |});
    [lia|reflexivity|reflexivity|].
  intros [|[|i]] Hi; [by left|right; by eexists|lia].
Defined.

(** X17. When no slot among the first [n] holds an errored or failed
    result, the loop returns the result and error of the last slot that is
    not nil; when all are nil it returns [result] and [err] as they were on
    entry, in [VerifyDuringCutover] the zero result, whose [DataCorrect] is
    false, and a nil error. *)
Theorem collect_none_failed (results : list (option verificationResultAndError))
    (n : nat) (result : VerificationResult) (err : option error) :
  (∀ i, (i < n)%nat → Controller.quiet results i) →
  ∃ out,
    Controller.collect results (seq 0 n) result err = Ok out ∧
    (((∀ i, (i < n)%nat → results !! i = Some None) ∧ out = (result, err))
     ∨
     (∃ j last_,
        (j < n)%nat ∧ results !! j = Some (Some last_) ∧
        (∀ i, (j < i < n)%nat → results !! i = Some None) ∧
        out = (Result last_, Error last_))).
Proof.
  induction n as [|n IH]; intros Hquiet.
  - exists (result, err). split; [done|]. left. split; [intros; lia|done].
  - destruct IH as (out & Hout & Hcases); [intros i Hi; apply Hquiet; lia|].
    destruct (collect_quiet_prefix results (seq 0 n) result err) as (r' & e' & Hrest).
    { apply Forall_forall. intros i Hi%elem_of_seq. apply Hquiet. lia. }
    pose proof (Hrest []) as Hnil. rewrite app_nil_r, Hout in Hnil.
    cbn [Controller.collect] in Hnil. injection Hnil as ->.
    rewrite seq_S, Hrest. cbn [plus Controller.collect].
    destruct (Hquiet n) as [Hn|(rae & Hn & Hrae)]; [lia|..]; rewrite Hn.
    + exists (r', e'). split; [done|].
      destruct Hcases as [[Hall ->]|(j & last_ & Hj & Hlast & Hafter & ->)].
      * left. split; [|done]. intros i Hi.
        destruct (decide (i = n)) as [->|?]; [done|apply Hall; lia].
      * right. exists j, last_. split_and!; [lia|done| |done]. intros i Hi.
        destruct (decide (i = n)) as [->|?]; [done|apply Hafter; lia].
    + rewrite Hrae. exists (Result rae, Error rae). split; [done|].
      right. exists n, rae. split_and!; [lia|done| |done]. intros i Hi. lia.
Qed.

Lemma collect_none_failed_witness :
  ∃ out,
    Controller.collect [None; Some Controller.matched; None] (seq 0 3)
      {| DataCorrect := false; Message := "" |} None = Ok out ∧
    (((∀ i, (i < 3)%nat →
            [None; Some Controller.matched; None] !! i = Some None) ∧
      out = ({| DataCorrect := false; Message := "" |}, None))
     ∨
     (∃ j last_,
        (j < 3)%nat ∧
        [None; Some Controller.matched; None] !! j = Some (Some last_) ∧
        (∀ i, (j < i < 3)%nat →
              [None; Some Controller.matched; None] !! i = Some None) ∧
        out = (Result last_, Error last_))).
Proof.
  apply (collect_none_failed [None; Some Controller.matched; None] 3).
  intros [|[|[|i]]] Hi; [by left|right; by eexists|by left|lia].
Defined.

Section fetch_facts.
Import Controller.

(** The query never fails to print, and its arguments are the keys. *)
Lemma GetMd5HashesSql_args in_empty schema_ table pkColumn columns pks :
  ∃ sql, Fingerprint.GetMd5HashesSql in_empty schema_ table pkColumn columns pks
         = (sql, pks, None).
Proof.
  unfold Fingerprint.GetMd5HashesSql, Fingerprint.rowMd5Selector, sq.ToSql,
    sq.OrderBy, sq.Where, sq.From, sq.Select.
  cbn [sq.Columns sq.FromPart sq.WhereParts sq.OrderBys app mbind list_bind snd].
  rewrite app_nil_r. by eexists.
Qed.

(** Filling the result set row by row keeps, for each key, the
    fingerprint of its last row. *)
Lemma result_set_last_row (rows : list (N * list byte)) (pk : N) :
  foldl (λ (resultSet : gmap N (list byte)) row, <[row.1 := row.2]> resultSet) ∅ rows
    !! pk
  = snd <$> last (filter (λ row, row.1 = pk) rows).
Proof.
  induction rows as [|row rows IH] using rev_ind; [done|].
  rewrite foldl_app, filter_app. cbn [foldl]. rewrite filter_cons, filter_nil.
  case_decide as Hrow.
  - by rewrite last_snoc, Hrow, lookup_insert_eq.
  - by rewrite app_nil_r, lookup_insert_ne.
Qed.
End fetch_facts.

(** X18. [GetHashes] on a database handle returns the error of the
    database, with a result set that holds no key, or, without error, the
    result set that maps each key the database returned to the fingerprint
    of the last row returned for it; a key asked for and not returned is
    absent.  The statement is run with the keys as its arguments. *)
Theorem GetHashes_result_set
    (in_empty : string → string)
    (db_query : nat → string → list uint64 → nat → list (uint64 * list byte) * option error)
    (handle : nat) (schema_ table pkColumn : string)
    (columns : list schema.TableColumn) (pks : list uint64) (attempt : nat)
    (rows : list (uint64 * list byte)) (err : option error) :
  db_query handle
    (Fingerprint.GetMd5HashesSql in_empty schema_ table pkColumn columns pks).1.1
    pks attempt = (rows, err) →
  ∃ resultSet,
    Controller.GetHashes in_empty db_query (Some handle) schema_ table pkColumn
      columns pks attempt = Ok (resultSet, err) ∧
    ∀ pk, resultSet !! pk =
          match err with
          | Some _ => None
          | None => snd <$> last (filter (λ row, row.1 = pk) rows)
          end.
Proof.
  unfold Controller.GetHashes.
  destruct (GetMd5HashesSql_args in_empty schema_ table pkColumn columns pks)
    as (sql & ->).
  simpl. intros ->. destruct err as [e|].
  - by exists ∅.
  - eexists. split; [done|]. intros pk. apply result_set_last_row.
Qed.

Lemma GetHashes_result_set_witness :
  ∃ resultSet,
    Controller.GetHashes Sample.in_empty Sample.same_rows (Some 1%nat) "db" "t1" "id"
      Sample.columns_if [1%N; 2%N] 0 = Ok (resultSet, None) ∧
    ∀ pk, resultSet !! pk =
          snd <$> last (filter (λ row, row.1 = pk)
                          [(1%N, ["d"%byte; "4"%byte]); (2%N, ["d"%byte; "4"%byte])]).
Proof.
  apply (GetHashes_result_set Sample.in_empty Sample.same_rows 1 "db" "t1" "id"
           Sample.columns_if [1%N; 2%N] 0
           [(1%N, ["d"%byte; "4"%byte]); (2%N, ["d"%byte; "4"%byte])] None).
  reflexivity.
Defined.

Section scan_facts.
Import Controller.

Context (in_empty : string → string)
  (db_query : nat → string → list N → nat → list (N * list byte) * option error)
  (cursor_pages : schema.Table → list (list (N * option error)) * option error)
  (compareHashes_run : gmap N (list byte) → gmap N (list byte) → list N)
  (worker_of : nat → nat).

Lemma added_pairs_of_table table (pks : list N) :
  Store.added_pairs ((λ pk, {| Pk := pk; EntryTable := table |}) <$> pks)
  = (λ pk, (NewTableIdentifierFromSchemaTable table, pk)) <$> pks.
Proof. unfold Store.added_pairs. by rewrite <- list_fmap_compose. Qed.

(** One page of the scan. *)
Lemma verify_page_listening table rows st ps err st' :
  listening st ps →
  verify_page in_empty db_query compareHashes_run table rows st = Ok (err, st') →
  only_store st.1 st'.1 ∧
  ∃ pks, listening st' (ps ++ ((λ pk, (NewTableIdentifierFromSchemaTable table, pk)) <$> pks)).
Proof.
  intros Hst. unfold verify_page.
  destruct (page_pks rows []) as [pks [e|]].
  { intros [= <- <-]. split; [apply only_store_refl|]. exists []. by rewrite app_nil_r. }
  destruct (compareFingerprints _ _ _ _ _ _) as [[mismatched [e|]]| |]; [| |done..];
    cbn [mbind outcome_bind].
  { intros [= <- <-]. split; [apply only_store_refl|]. exists []. by rewrite app_nil_r. }
  destruct (send_all_listening
              ((λ pk, {| Pk := pk; EntryTable := table |}) <$> mismatched) st ps Hst)
    as (st1 & Hsend & H1).
  rewrite Hsend. cbn [mbind outcome_bind]. intros [= <- <-]. split.
  - destruct st as [v σ], st1 as [v1 σ1]. by eapply send_all_only_store.
  - exists mismatched. by rewrite <- added_pairs_of_table.
Qed.

Lemma cursor_Each_listening table pages cursorErr : ∀ st ps err st',
  listening st ps →
  cursor_Each in_empty db_query compareHashes_run table pages cursorErr st
    = Ok (err, st') →
  only_store st.1 st'.1 ∧
  ∃ pks, listening st' (ps ++ ((λ pk, (NewTableIdentifierFromSchemaTable table, pk)) <$> pks)).
Proof.
  induction pages as [|rows pages IH]; intros st ps err st' Hst; cbn [cursor_Each].
  - intros [= <- <-]. split; [apply only_store_refl|]. exists []. by rewrite app_nil_r.
  - destruct (verify_page _ _ _ _ _ _) as [[e1 st1]| |] eqn:Hpage; [|done..].
    cbn [mbind outcome_bind].
    destruct (verify_page_listening _ _ _ _ _ _ Hst Hpage) as (Hframe1 & pks1 & H1).
    destruct e1 as [e|].
    + intros [= <- <-]. split; [done|]. by exists pks1.
    + intros Hrest. destruct (IH st1 _ err st' H1 Hrest) as (Hframe2 & pks2 & H2). split.
      * by eapply only_store_trans.
      * exists (pks1 ++ pks2). by rewrite fmap_app, app_assoc.
Qed.

Lemma verifyTableBeforeCutover_listening table st ps err st' :
  listening st ps →
  verifyTableBeforeCutover in_empty db_query cursor_pages compareHashes_run table st
    = Ok (err, st') →
  only_store st.1 st'.1 ∧
  ∃ pks, listening st' (ps ++ ((λ pk, (NewTableIdentifierFromSchemaTable table, pk)) <$> pks)).
Proof.
  intros Hst. unfold verifyTableBeforeCutover.
  destruct (CursorConfig st.1); [|done].
  destruct (schema.GetPKColumn table 0); [|done..]. cbn [mbind outcome_bind].
  destruct (cursor_pages table) as [pages cursorErr].
  by apply cursor_Each_listening.
Qed.
End scan_facts.

(** X19. While the verifier is listening (the channel open, the consumer
    running, the store live), the scan of a table that returns, with or
    without an error, has removed nothing from the store and has added
    only pairs of that table; of the verifier it has changed the store
    only. *)
Theorem scan_adds_pairs_of_its_table
    (in_empty : string → string)
    (db_query : nat → string → list uint64 → nat → list (uint64 * list byte) * option error)
    (cursor_pages : schema.Table → list (list (uint64 * option error)) * option error)
    (compareHashes_run : gmap uint64 (list byte) → gmap uint64 (list byte) → list uint64)
    (table : schema.Table) (st st' : IterativeVerifier * Store.Mem)
    (ps : list (TableIdentifier * uint64)) (err : option error) :
  Controller.listening st ps →
  Controller.verifyTableBeforeCutover in_empty db_query cursor_pages compareHashes_run
    table st = Ok (err, st') →
  Controller.only_store st.1 st'.1 ∧
  ∃ pks, Controller.listening st'
           (ps ++ ((λ pk, (NewTableIdentifierFromSchemaTable table, pk)) <$> pks)).
Proof. apply verifyTableBeforeCutover_listening. Qed.

Lemma scan_adds_pairs_of_its_table_witness :
  Controller.listening Sample.state_ready [] ∧
  Controller.verifyTableBeforeCutover Sample.in_empty Sample.diff_rows Sample.one_page
    Comparator.compareHashes Sample.t1 Sample.state_ready
  = Ok (None, Sample.state_scanned) ∧
  Controller.only_store Sample.state_ready.1 Sample.state_scanned.1 ∧
  ∃ pks, Controller.listening Sample.state_scanned
           ([] ++ ((λ pk, (NewTableIdentifierFromSchemaTable Sample.t1, pk)) <$> pks)).
Proof.
  assert (Controller.listening Sample.state_ready []) as Hst.
  { split_and!; [by vm_compute|by eexists|].
    eexists. split; [by vm_compute|].
    exists 1%positive. split_and!; [done..|]. intros t pk.
    change (Store.deref Sample.state_ready.2 1%positive) with (∅ : gmap TableIdentifier (gset N)).
    rewrite lookup_empty. simpl.
    split; [by intros ?%not_elem_of_empty|by intros ?%elem_of_nil]. }
  split; [exact Hst|]. split; [by vm_compute|].
  apply (scan_adds_pairs_of_its_table Sample.in_empty Sample.diff_rows Sample.one_page
           Comparator.compareHashes Sample.t1 Sample.state_ready Sample.state_scanned
           [] None Hst).
  by vm_compute.
Defined.

Section before_cutover_facts.
Import Controller.

Context (in_empty : string → string)
  (db_query : nat → string → list N → nat → list (N * list byte) * option error)
  (cursor_pages : schema.Table → list (list (N * option error)) * option error)
  (compareHashes_run : gmap N (list byte) → gmap N (list byte) → list N)
  (worker_of : nat → nat).

Lemma verify_page_only_store table rows st err st' :
  verify_page in_empty db_query compareHashes_run table rows st = Ok (err, st') →
  only_store st.1 st'.1.
Proof.
  unfold verify_page. destruct (page_pks rows []) as [pks [e|]].
  { intros [= <- <-]. apply only_store_refl. }
  destruct (compareFingerprints _ _ _ _ _ _) as [[mismatched [e|]]| |]; [| |done..];
    cbn [mbind outcome_bind].
  { intros [= <- <-]. apply only_store_refl. }
  destruct (send_all _ st) as [[v1 σ1]| |] eqn:Hsend; [|done..].
  cbn [mbind outcome_bind]. intros [= <- <-]. destruct st as [v σ].
  by eapply send_all_only_store.
Qed.

Lemma cursor_Each_only_store table pages cursorErr : ∀ st err st',
  cursor_Each in_empty db_query compareHashes_run table pages cursorErr st
    = Ok (err, st') →
  only_store st.1 st'.1.
Proof.
  induction pages as [|rows pages IH]; intros st err st'; cbn [cursor_Each].
  - intros [= <- <-]. apply only_store_refl.
  - destruct (verify_page _ _ _ _ _ _) as [[e1 st1]| |] eqn:Hpage; [|done..].
    cbn [mbind outcome_bind]. apply verify_page_only_store in Hpage.
    destruct e1 as [e|].
    + by intros [= <- <-].
    + intros Hrest%IH. by eapply only_store_trans.
Qed.

Lemma verifyTableBeforeCutover_only_store table st err st' :
  verifyTableBeforeCutover in_empty db_query cursor_pages compareHashes_run table st
    = Ok (err, st') →
  only_store st.1 st'.1.
Proof.
  unfold verifyTableBeforeCutover. destruct (CursorConfig st.1); [|done].
  destruct (schema.GetPKColumn table 0); [|done..]. cbn [mbind outcome_bind].
  destruct (cursor_pages table) as [pages cursorErr]. apply cursor_Each_only_store.
Qed.

(** The pool over the tables [tables]. *)
Lemma pool_tables (tables : list schema.Table) jobs : ∀ st results st' out,
  pool_jobs (A := ()) worker_of
    (λ tableIndex st,
       match tables !! tableIndex with
       | None => Panic "index out of range"
       | Some table =>
         '(err, st) ← verifyTableBeforeCutover in_empty db_query cursor_pages
                        compareHashes_run table st;
         Ok (st, (None, err))
       end) jobs st results = Ok (st', out) →
  only_store st.1 st'.1 ∧
  ∀ ps, listening st ps → ∃ new, listening st' (ps ++ new).
Proof.
  induction jobs as [|i jobs IH]; intros st results st' out; cbn [pool_jobs].
  - intros [= <- <-]. split; [apply only_store_refl|].
    intros ps Hps. exists []. by rewrite app_nil_r.
  - destruct results as [|o results]; [done|].
    destruct (tables !! i) as [table|]; [|done].
    destruct (verifyTableBeforeCutover _ _ _ _ _ _) as [[e1 st1]| |] eqn:Hscan; [|done..].
    cbn [mbind outcome_bind].
    pose proof (verifyTableBeforeCutover_only_store _ _ _ _ Hscan) as Hframe1.
    assert (∀ ps, listening st ps → ∃ new, listening st1 (ps ++ new)) as Hgrow1.
    { intros ps Hps.
      destruct (verifyTableBeforeCutover_listening _ _ _ _ _ _ _ _ _ Hps Hscan)
        as (_ & pks & H1).
      by eexists. }
    destruct e1 as [e|].
    + by intros [= <- <-].
    + intros [Hframe2 Hgrow2]%IH. split; [by eapply only_store_trans|].
      intros ps Hps. destruct (Hgrow1 ps Hps) as (new1 & H1).
      destruct (Hgrow2 _ H1) as (new2 & H2).
      exists (new1 ++ new2). by rewrite app_assoc.
Qed.
End before_cutover_facts.

(** X20. A call of [VerifyBeforeCutover] that returns has marked the
    verification before cutover as done whether or not the scan returned an
    error, has started the consumer (the wait group counts one) and has
    attached one more listener to the streamer; apart from these and the
    store it has changed nothing of the verifier, the cutover flag
    included. *)
Theorem VerifyBeforeCutover_marks_done
    (in_empty : string → string)
    (db_query : nat → string → list uint64 → nat → list (uint64 * list byte) * option error)
    (cursor_pages : schema.Table → list (list (uint64 * option error)) * option error)
    (compareHashes_run : gmap uint64 (list byte) → gmap uint64 (list byte) → list uint64)
    (worker_of : nat → nat)
    (st st' : IterativeVerifier * Store.Mem) (err : option error) :
  Controller.VerifyBeforeCutover in_empty db_query cursor_pages compareHashes_run
    worker_of st = Ok (err, st') →
  st'.1 = set_beforeCutoverVerifyDone true
            (set_reverifyStore (reverifyStore st'.1)
               (set_BinlogStreamer (S <$> BinlogStreamer st.1)
                  (set_wg (Some 1%Z) st.1))).
Proof.
  destruct st as [v σ]. unfold Controller.VerifyBeforeCutover.
  destruct (Controller.log v); [|done..]. cbn [mbind outcome_bind].
  cbn [BinlogStreamer set_wg]. destruct (BinlogStreamer v) as [n|] eqn:Hn; [|done].
  cbn [mbind outcome_bind]. unfold Controller.WorkerPool_Run.
  destruct (Controller.pool_jobs _ _ _ _ _) as [[[v1 σ1] [results e]]| |] eqn:Hpool;
    [|done..].
  cbn [mbind outcome_bind]. intros [= <- <-].
  apply pool_tables in Hpool as [Hframe _]. simpl in Hframe.
  unfold Controller.only_store in Hframe. simpl. rewrite Hframe at 1. simpl.
  by rewrite Hn.
Qed.

Lemma VerifyBeforeCutover_marks_done_witness :
  Controller.VerifyBeforeCutover Sample.in_empty Sample.same_rows Sample.one_page
    Comparator.compareHashes Sample.first_worker
    (Controller.Initialize (Sample.verifier_configured, Store.empty_mem)).2
  = Ok (None, Sample.state_ready) ∧
  Sample.state_ready.1
  = set_beforeCutoverVerifyDone true
      (set_reverifyStore (reverifyStore Sample.state_ready.1)
         (set_BinlogStreamer
            (S <$> BinlogStreamer
                     (Controller.Initialize (Sample.verifier_configured, Store.empty_mem)).2.1)
            (set_wg (Some 1%Z)
               (Controller.Initialize (Sample.verifier_configured, Store.empty_mem)).2.1))).
Proof.
  split; [by vm_compute|].
  apply (VerifyBeforeCutover_marks_done Sample.in_empty Sample.same_rows Sample.one_page
           Comparator.compareHashes Sample.first_worker
           (Controller.Initialize (Sample.verifier_configured, Store.empty_mem)).2
           Sample.state_ready None).
  by vm_compute.
Defined.

(** X21. From an initialized verifier, the channel open and the store live,
    a call of [VerifyBeforeCutover] that returns leaves the verifier
    listening, and every pair the store held before the call is still in
    it: the scan only adds. *)
Theorem VerifyBeforeCutover_only_adds
    (in_empty : string → string)
    (db_query : nat → string → list uint64 → nat → list (uint64 * list byte) * option error)
    (cursor_pages : schema.Table → list (list (uint64 * option error)) * option error)
    (compareHashes_run : gmap uint64 (list byte) → gmap uint64 (list byte) → list uint64)
    (worker_of : nat → nat)
    (v : IterativeVerifier) (σ : Store.Mem) (r : Store.ReverifyStore)
    (ps : list (TableIdentifier * uint64))
    (st' : IterativeVerifier * Store.Mem) (err : option error) :
  reverifyChan v = Some chan_open → reverifyStore v = Some r → Store.holds σ r ps →
  Controller.VerifyBeforeCutover in_empty db_query cursor_pages compareHashes_run
    worker_of (v, σ) = Ok (err, st') →
  ∃ new, Controller.listening st' (ps ++ new).
Proof.
  intros Hchan Hr Hholds. unfold Controller.VerifyBeforeCutover.
  destruct (Controller.log v); [|done..]. cbn [mbind outcome_bind].
  cbn [BinlogStreamer set_wg]. destruct (BinlogStreamer v) as [n|] eqn:Hn; [|done].
  cbn [mbind outcome_bind]. unfold Controller.WorkerPool_Run.
  destruct (Controller.pool_jobs _ _ _ _ _) as [[[v1 σ1] [results e]]| |] eqn:Hpool;
    [|done..].
  cbn [mbind outcome_bind]. intros [= <- <-].
  apply pool_tables in Hpool as [_ Hgrow].
  destruct (Hgrow ps) as (new & Hchan1 & Hwg1 & r1 & Hr1 & Hholds1).
  { split_and!; simpl; [done|by eexists|by exists r]. }
  exists new. split_and!; simpl in *; [done..|]. by exists r1.
Qed.

Lemma VerifyBeforeCutover_only_adds_witness :
  ∃ new, Controller.listening Sample.state_ready ([] ++ new).
Proof.
  eapply (VerifyBeforeCutover_only_adds Sample.in_empty Sample.same_rows Sample.one_page
            Comparator.compareHashes Sample.first_worker
            (Controller.Initialize (Sample.verifier_configured, Store.empty_mem)).2.1
            (Controller.Initialize (Sample.verifier_configured, Store.empty_mem)).2.2
            _ [] Sample.state_ready None);
    [by vm_compute|by vm_compute| |by vm_compute].
  apply (NewReverifyStore_holds Store.empty_mem).
Defined.

Section page_facts.
Import Controller.

Lemma page_pks_bad_row pre pk e post : ∀ pks,
  Forall (λ row : N * option error, row.2 = None) pre →
  page_pks (pre ++ (pk, Some e) :: post) pks = (pks ++ pre.*1, Some e).
Proof.
  induction pre as [|[pk0 err0] pre IH]; intros pks Hpre.
  - simpl. by rewrite app_nil_r.
  - apply Forall_cons in Hpre as [Herr Hpre]. simpl in Herr. subst err0.
    cbn [app page_pks]. rewrite IH by done. cbn [fmap list_fmap fst].
    by rewrite <- app_assoc.
Qed.
End page_facts.

(** X22. A row whose key cannot be read abandons the scan of its table: if
    a row of the first page of the cursor gives an error for its key, the
    rows before it giving theirs, [verifyTableBeforeCutover] returns that
    error without fetching a fingerprint or sending an entry; the state is
    unchanged and the later pages are not visited. *)
Theorem scan_stops_at_unreadable_key
    (in_empty : string → string)
    (db_query : nat → string → list uint64 → nat → list (uint64 * list byte) * option error)
    (cursor_pages : schema.Table → list (list (uint64 * option error)) * option error)
    (compareHashes_run : gmap uint64 (list byte) → gmap uint64 (list byte) → list uint64)
    (table : schema.Table) (st : IterativeVerifier * Store.Mem)
    (pre post : list (uint64 * option error)) (pk : uint64) (e : error)
    (pages : list (list (uint64 * option error))) (cursorErr : option error) :
  CursorConfig st.1 ≠ None →
  (∃ column, schema.GetPKColumn table 0 = Ok column) →
  cursor_pages table = ((pre ++ (pk, Some e) :: post) :: pages, cursorErr) →
  Forall (λ row, row.2 = None) pre →
  Controller.verifyTableBeforeCutover in_empty db_query cursor_pages compareHashes_run
    table st = Ok (Some e, st).
Proof.
  intros Hconfig [column Hcolumn] Hpages Hpre.
  unfold Controller.verifyTableBeforeCutover.
  destruct (CursorConfig st.1); [|done]. rewrite Hcolumn, Hpages.
  cbn [mbind outcome_bind Controller.cursor_Each]. unfold Controller.verify_page.
  by rewrite page_pks_bad_row.
Qed.

Lemma scan_stops_at_unreadable_key_witness :
  Controller.verifyTableBeforeCutover Sample.in_empty Sample.diff_rows
    (λ _, ([[(1%N, None); (0%N, Some "not a number"); (3%N, None)]; [(4%N, None)]], None))
    Comparator.compareHashes Sample.t1 Sample.state_ready
  = Ok (Some "not a number", Sample.state_ready).
Proof.
  apply (scan_stops_at_unreadable_key Sample.in_empty Sample.diff_rows
           (λ _, ([[(1%N, None); (0%N, Some "not a number"); (3%N, None)]; [(4%N, None)]],
                  None))
           Comparator.compareHashes Sample.t1 Sample.state_ready
           [(1%N, None)] [(3%N, None)] 0%N "not a number" [[(4%N, None)]] None).
  - by vm_compute.
  - by eexists.
  - reflexivity.
  - by repeat constructor.
Defined.

(** X23. A call of [FreezeAndBatchByTable] that returns leaves the store
    live and empty, whatever it held: it is not frozen.  A later [Add]
    succeeds, and a pair the call has returned can be added, counted and
    returned again. *)
Theorem freeze_leaves_store_empty (batchsize : Z) (σ σ' : Store.Mem)
    (r : Store.ReverifyStore) (ps : list (TableIdentifier * uint64))
    (batches : list ReverifyBatch) :
  Store.holds σ r ps →
  Store.FreezeAndBatchByTable_returns batchsize σ r (Ok (batches, σ')) →
  Store.holds σ' r [] ∧
  ∀ e, ∃ σ'' r'',
    Store.Add e σ' r = Ok (σ'', r'') ∧
    Store.holds σ'' r'' [(NewTableIdentifierFromSchemaTable (EntryTable e), Pk e)] ∧
    Store.RowCount r'' = ((Store.RowCount r + 1) mod 2 ^ 64)%N.
Proof.
  intros (l & Hl & Hlog & _) Hret.
  assert (Store.holds σ' r []) as Hempty.
  { exists l. split_and!; [done..|]. intros t pk.
    rewrite (FreezeAndBatchByTable_drains batchsize σ r l batches σ') by done.
    rewrite lookup_empty. simpl.
    split; [by intros ?%not_elem_of_empty|by intros ?%elem_of_nil]. }
  split; [done|]. intros e.
  destruct (Add_holds e σ' r [] Hempty) as (σ'' & r'' & Hadd & Hholds).
  destruct (Add_count e σ' r [] Hempty) as (σ2 & r2 & Hadd' & Hcount).
  rewrite Hadd in Hadd'. injection Hadd' as <- <-.
  exists σ'', r''. split_and!; [done..|].
  rewrite Hcount. rewrite decide_False; [done|]. by intros ?%elem_of_nil.
Qed.

Lemma freeze_leaves_store_empty_witness :
  Store.holds Sample.mem_drained Sample.store_42 [] ∧
  ∀ e, ∃ σ'' r'',
    Store.Add e Sample.mem_drained Sample.store_42 = Ok (σ'', r'') ∧
    Store.holds σ'' r'' [(NewTableIdentifierFromSchemaTable (EntryTable e), Pk e)] ∧
    Store.RowCount r'' = ((Store.RowCount Sample.store_42 + 1) mod 2 ^ 64)%N.
Proof.
  apply (freeze_leaves_store_empty 1 Sample.mem_42 Sample.mem_drained Sample.store_42
           [(Sample.tid1, 42%N)] [Sample.batch_42]).
  - exists 1%positive. split_and!; [done..|]. intros t pk.
    change (Store.deref Sample.mem_42 1%positive)
      with ({[ Sample.tid1 := {[ 42%N ]} ]} : gmap TableIdentifier (gset N)).
    rewrite list_elem_of_singleton. destruct (decide (t = Sample.tid1)) as [->|Hne].
    + rewrite lookup_singleton_eq. simpl. rewrite elem_of_singleton.
      split; [by intros ->|by intros [= ->]].
    + rewrite lookup_singleton_ne by done. simpl.
      split; [by intros ?%not_elem_of_empty|by intros [= ? ?]].
  - exists (Store.canonical_visits (Store.contents Sample.mem_42 Sample.store_42)).
    split; [apply ranges_store_canonical|by vm_compute].
Defined.
